(** * zarr_etl_tools: the dataset manager and its store interfaces

    A shallow embedding of [zarr_etl_tools/dataset_manager.py] and
    [zarr_etl_tools/utils/store.py].

    Python objects that are mutated in place (the store's cached [_fs] and
    [_mapper] attributes, the [metadata] dictionary) are modelled with
    explicit state: an attribute that has never been assigned is [None] at
    the Rocq level ([hasattr] is false), dictionaries live in a heap and are
    referred to by address, and every object created by a library call
    carries a fresh identity.  Calls that leave the process (loggers, the
    IPFS client, file systems) are recorded in a trace. *)

From Stdlib Require Import ZArith QArith.
From stdpp Require Import gmap strings list.

(** ** Python values used by the managers *)

(** Truthiness of an optional string: [None] and [""] are falsy. *)
Definition truthy (v : option string) : bool :=
  match v with
  | None => false
  | Some s => negb (String.eqb s "")
  end.

(** [needle in hay] for strings. *)
Fixpoint str_contains (needle hay : string) : bool :=
  String.prefix needle hay
  || match hay with
     | EmptyString => false
     | String _ rest => str_contains needle rest
     end.

(** A reference held in an attribute: Python's [None] or the address of a
    dictionary in the heap. *)
Inductive pyref :=
  | PyNone
  | PyDict (addr : nat).

Abbreviation pydict := (gmap string string).

(** ** Exceptions and results *)

Inductive exn :=
  | ValueError (msg : string)
  | TypeError (msg : string)
  | KeyError (key : string)
  | AttributeError (attr : string)
  | PhaseFailure (msg : string).

Inductive outcome (A : Type) :=
  | Returned (a : A)
  | Raised (e : exn).
Arguments Returned {A} a.
Arguments Raised {A} e.

(** ** Objects handed out by the storage libraries *)

(** A filesystem client: [s3fs.S3FileSystem], with the explicit credentials
    it was given if any, or fsspec's local filesystem. *)
Inductive filesystem :=
  | S3FileSystem (id : nat) (credentials : option (string * string))
  | LocalFileSystem (id : nat).

(** A key/value view of a Zarr store. *)
Inductive mapper_obj :=
  | FSMap (id : nat) (root : string) (fs : filesystem)
  | IPLDStore (id : nat) (chunker : string) (root : option string).

Definition mapper_id (m : mapper_obj) : nat :=
  match m with
  | FSMap id _ _ => id
  | IPLDStore id _ _ => id
  end.

Definition mapper_root (m : mapper_obj) : option string :=
  match m with
  | FSMap _ root _ => Some root
  | IPLDStore _ _ root => root
  end.

(** ** The trace of calls leaving the manager *)

Inductive phase :=
  | UpdateLocalInput
  | OnlyUpdateMetadata
  | PrepareInputFiles
  | CreateZarrJson
  | Parse.

Inductive event :=
  | EvSuperInit                          (* super().__init__() *)
  | EvLogToConsole                       (* self.log_to_console() *)
  | EvLogToFile (level : option Z)       (* manager.log_to_file(level=...) *)
  | EvSetRootLogLevel (level : Z)       (* logging.getLogger().setLevel *)
  | EvSetExceptHook                      (* sys.excepthook = ... *)
  | EvCpuCount                           (* multiprocessing.cpu_count() *)
  | EvInfo (msg : string)                (* dm.info(msg) *)
  | EvPrint (msg : string)               (* print(msg) *)
  | EvLatestHash                         (* dm.latest_hash() *)
  | EvS3Connect (explicit : bool)        (* s3fs.S3FileSystem(...) *)
  | EvLocalFilesystem                    (* fsspec.filesystem("file") *)
  | EvS3Map (root : string)              (* s3fs.S3Map(root=..., s3=...) *)
  | EvGetMapper (path : string)          (* fs.get_mapper(path) *)
  | EvGetIpfsMapper (chunker : option string) (* ipldstore.get_ipfs_mapper *)
  | EvSetRoot (hash : option string)     (* mapper.set_root(hash) *)
  | EvExists (path : string)             (* fs.exists / Path.exists *)
  | EvPhase (p : phase).                 (* a lifecycle method of the source *)

(** The events that reach the network, the IPFS client or a file system. *)
Definition is_store_io (e : event) : bool :=
  match e with
  | EvLatestHash | EvS3Connect _ | EvLocalFilesystem | EvS3Map _
  | EvGetMapper _ | EvGetIpfsMapper _ | EvSetRoot _ | EvExists _
  | EvPhase _ => true
  | _ => false
  end.

Definition phase_of (e : event) : option phase :=
  match e with
  | EvPhase p => Some p
  | _ => None
  end.

(** The lifecycle methods invoked in a trace, in order. *)
Definition phases_of (tr : list event) : list phase := omap phase_of tr.

Definition is_latest_hash (e : event) : bool :=
  match e with
  | EvLatestHash => true
  | _ => false
  end.

(** ** The world a manager runs in *)

Record world := World {
  w_trace : list event;            (* calls made so far, oldest first *)
  w_next : nat;                    (* identity of the next object created *)
  w_heap : gmap nat pydict;        (* dictionaries, by address *)
  w_environ : gmap string string;  (* os.environ *)
  w_cpu_count : Z;                 (* multiprocessing.cpu_count() *)
  w_latest_hash : option string;   (* what dm.latest_hash() resolves to *)
  w_default_chunker : string;      (* chunker of ipldstore.get_ipfs_mapper() *)
  w_existing : gset string         (* paths and URLs that exist *)
}.

(** The world after the events [evs] have been recorded. *)
Definition add_events (w : world) (evs : list event) : world :=
  World (w_trace w ++ evs) (w_next w) (w_heap w) (w_environ w)
        (w_cpu_count w) (w_latest_hash w) (w_default_chunker w)
        (w_existing w).

(** The world once objects up to identity [n] have been created. *)
Definition with_next (w : world) (n : nat) : world :=
  World (w_trace w) n (w_heap w) (w_environ w) (w_cpu_count w)
        (w_latest_hash w) (w_default_chunker w) (w_existing w).

Definition with_heap (w : world) (h : gmap nat pydict) : world :=
  World (w_trace w) (w_next w) h (w_environ w) (w_cpu_count w)
        (w_latest_hash w) (w_default_chunker w) (w_existing w).

(** ** A state and exception monad over the world *)

Module EtlMonad.

Definition M (A : Type) : Type := world -> outcome A * world.

Definition ret {A} (a : A) : M A := fun w => (Returned a, w).

Definition bind {A B} (c : M A) (k : A -> M B) : M B :=
  fun w =>
    match c w with
    | (Returned a, w') => k a w'
    | (Raised e, w') => (Raised e, w')
    end.

Definition raise {A} (e : exn) : M A := fun w => (Raised e, w).

(** [try: c except KeyError: h] *)
Definition catch_KeyError {A} (c : M A) (h : M A) : M A :=
  fun w =>
    match c w with
    | (Raised (KeyError _), w') => h w'
    | r => r
    end.

Definition gets {A} (f : world -> A) : M A := fun w => (Returned (f w), w).

Definition emit (e : event) : M unit :=
  fun w => (Returned tt, add_events w [e]).

(** Identity for a newly created object. *)
Definition fresh : M nat :=
  fun w => (Returned (w_next w), with_next w (S (w_next w))).

Definition set_heap (h : gmap nat pydict) : M unit :=
  fun w => (Returned tt, with_heap w h).

(** Lift a call whose outcome is known. *)
Definition lift {A} (o : outcome A) : M A := fun w => (o, w).

Definition when (b : bool) (c : M unit) : M unit :=
  if b then c else ret tt.

End EtlMonad.
Import EtlMonad.

Declare Scope etl_scope.
Delimit Scope etl_scope with etl.
Notation "x <- c1 ;; c2" := (bind c1 (fun x => c2))
  (at level 100, c1 at next level, right associativity) : etl_scope.
Notation "c1 ;; c2" := (bind c1 (fun _ => c2))
  (at level 100, right associativity) : etl_scope.
Local Open Scope etl_scope.

(** The events a computation adds to the trace of [w]. *)
Definition new_events {A} (c : M A) (w : world) : list event :=
  drop (length (w_trace w)) (w_trace (snd (c w))).

(** ** Dataset sources

    A concrete dataset source is a subclass of [DatasetManager].  The class
    object carries what the manager reads from it: the class-level [name()]
    and [json_key()], the chunk sizes its initialiser passes up, the outcome
    of each lifecycle method it implements, and its direct subclasses
    ([cls.__subclasses__()], in definition order). *)

Record source_impl := SourceImpl {
  src_requested_dask_chunks : gmap string Z;
  src_requested_zarr_chunks : gmap string Z;
  src_requested_ipfs_chunker : option string;
  src_static_metadata : pyref;
  src_default_output_path : string;
  src_update_local_input : outcome bool;
  src_only_update_metadata : outcome unit;
  src_prepare_input_files : outcome unit;
  src_create_zarr_json : outcome unit;
  src_parse : outcome bool
}.

#[warnings="-register-all"]
Inductive source_class :=
  | SourceClass (name json_key : string) (impl : source_impl)
                (subclasses : list source_class).

Definition cls_name (c : source_class) : string :=
  match c with SourceClass n _ _ _ => n end.
Definition cls_json_key (c : source_class) : string :=
  match c with SourceClass _ k _ _ => k end.
Definition cls_impl (c : source_class) : source_impl :=
  match c with SourceClass _ _ i _ => i end.
Definition cls_subclasses (c : source_class) : list source_class :=
  match c with SourceClass _ _ _ l => l end.

(** ** Store interfaces ([utils/store.py])

    Each store keeps a back-reference [self.dm] to the manager that owns it;
    the manager in turn holds the store.  The cycle is cut by handing the
    owning manager to every store method, so a store always reads the
    manager's current attributes. *)

Record S3_store := MkS3 {
  s3_bucket : string;
  s3_fs : option filesystem;        (* self._fs, when it has been set *)
  s3_mapper : option mapper_obj     (* self._mapper, when it has been set *)
}.

Record Local_store := MkLocal {
  local_fs : option filesystem;
  local_mapper : option mapper_obj
}.

Inductive StoreInterface :=
  | S3 (s : S3_store)
  | IPLD
  | Local (s : Local_store).

Definition is_S3 (st : StoreInterface) : bool :=
  match st with S3 _ => true | _ => false end.
Definition is_IPLD (st : StoreInterface) : bool :=
  match st with IPLD => true | _ => false end.
Definition is_Local (st : StoreInterface) : bool :=
  match st with Local _ => true | _ => false end.

(** The cached mapper of a store, if it has one. *)
Definition cached_mapper (st : StoreInterface) : option mapper_obj :=
  match st with
  | S3 s => s3_mapper s
  | IPLD => None
  | Local s => local_mapper s
  end.

(** ** The dataset manager *)

Record DatasetManager := MkDatasetManager {
  dm_class : source_class;
  new_files : list string;
  custom_output_path : option string;
  custom_latest_hash : option string;
  custom_input_path : option string;
  rebuild_requested : bool;
  store : StoreInterface;
  overwrite_allowed : bool;
  requested_dask_chunks : gmap string Z;
  requested_zarr_chunks : gmap string Z;
  requested_ipfs_chunker : option string;
  dask_scheduler_worker_saturation : Q;
  dask_worker_mem_target : Q;
  dask_worker_mem_spill : Q;
  dask_worker_mem_pause : Q;
  dask_worker_mem_terminate : Q;
  dask_num_threads : Z;
  dask_num_workers : Z;
  metadata : option pyref           (* absent until first assigned *)
}.

Definition name (dm : DatasetManager) : string := cls_name (dm_class dm).
Definition json_key (dm : DatasetManager) : string := cls_json_key (dm_class dm).
Definition static_metadata (dm : DatasetManager) : pyref :=
  src_static_metadata (cls_impl (dm_class dm)).

(** Modelled from the spec: [output_path] belongs to a mixin that is not part
    of these sources; [custom_output_path] "overrides the default path",
    which is otherwise derived from the source. *)
Definition output_path (dm : DatasetManager) : string :=
  match custom_output_path dm with
  | Some p => p
  | None => src_default_output_path (cls_impl (dm_class dm))
  end.

Definition with_metadata (dm : DatasetManager) (md : option pyref) : DatasetManager :=
  MkDatasetManager (dm_class dm) (new_files dm) (custom_output_path dm)
    (custom_latest_hash dm) (custom_input_path dm) (rebuild_requested dm)
    (store dm) (overwrite_allowed dm) (requested_dask_chunks dm)
    (requested_zarr_chunks dm) (requested_ipfs_chunker dm)
    (dask_scheduler_worker_saturation dm) (dask_worker_mem_target dm)
    (dask_worker_mem_spill dm) (dask_worker_mem_pause dm)
    (dask_worker_mem_terminate dm) (dask_num_threads dm) (dask_num_workers dm)
    md.

(** [dm.info(msg)] *)
Definition info (msg : string) : M unit := emit (EvInfo msg).

(** [dm.latest_hash()]: resolved by the IPFS client, outside these sources;
    the call is recorded and answers what the world resolves. *)
Definition latest_hash : M (option string) :=
  emit EvLatestHash ;; gets w_latest_hash.

(** [os.environ[key]] *)
Definition environ_get (key : string) : M string :=
  v <- gets (fun w => w_environ w !! key) ;;
  match v with
  | Some s => ret s
  | None => raise (KeyError key)
  end.

(** Reading an attribute that is only there once it has been assigned. *)
Definition getattr {A} (attr : string) (v : option A) : M A :=
  match v with
  | Some a => ret a
  | None => raise (AttributeError attr)
  end.

Definition hasattr {A} (v : option A) : bool :=
  match v with Some _ => true | None => false end.

(** *** S3 *)

(** [S3.__init__(dm, bucket)] *)
Definition S3_init (bucket : option string) : M S3_store :=
  if negb (truthy bucket) then
    raise (ValueError "Must provide bucket name if parsing to S3")
  else
    ret (MkS3 (default "" bucket) None None).

(** [S3.url] *)
Definition S3_url (dm : DatasetManager) (self : S3_store) : string :=
  "s3://" +:+ s3_bucket self +:+ "/datasets/" +:+ json_key dm +:+ ".zarr".

(** [S3.fs(refresh)] *)
Definition S3_fs (dm : DatasetManager) (refresh : bool) (self : S3_store)
  : M (filesystem * S3_store) :=
  self <- (if refresh || negb (hasattr (s3_fs self)) then
             fs <- catch_KeyError
                     (key <- environ_get "AWS_ACCESS_KEY_ID" ;;
                      secret <- environ_get "AWS_SECRET_ACCESS_KEY" ;;
                      id <- fresh ;;
                      emit (EvS3Connect true) ;;
                      ret (S3FileSystem id (Some (key, secret))))
                     (id <- fresh ;;
                      emit (EvS3Connect false) ;;
                      ret (S3FileSystem id None)) ;;
             info "Connected to S3 filesystem" ;;
             ret (MkS3 (s3_bucket self) (Some fs) (s3_mapper self))
           else ret self) ;;
  fs <- getattr "_fs" (s3_fs self) ;;
  ret (fs, self).

(** [S3.mapper(refresh, **kwargs)] *)
Definition S3_mapper (dm : DatasetManager) (refresh : bool) (self : S3_store)
  : M (mapper_obj * S3_store) :=
  self <- (if refresh || negb (hasattr (s3_mapper self)) then
             let root := S3_url dm self in
             r <- S3_fs dm false self ;;
             id <- fresh ;;
             emit (EvS3Map root) ;;
             ret (MkS3 (s3_bucket (snd r)) (s3_fs (snd r))
                       (Some (FSMap id root (fst r))))
           else ret self) ;;
  m <- getattr "_mapper" (s3_mapper self) ;;
  ret (m, self).

(** [S3.has_existing] *)
Definition S3_has_existing (dm : DatasetManager) (self : S3_store)
  : M (bool * S3_store) :=
  r <- S3_fs dm false self ;;
  emit (EvExists (S3_url dm (snd r))) ;;
  b <- gets (fun w => bool_decide (S3_url dm (snd r) ∈ w_existing w)) ;;
  ret (b, snd r).

(** *** IPLD *)

(** [mapper.set_root(hash)], a method of [ipldstore.IPLDStore]. *)
Definition set_root (m : mapper_obj) (hash : option string) : M mapper_obj :=
  match m with
  | IPLDStore id chunker _ =>
      emit (EvSetRoot hash) ;; ret (IPLDStore id chunker hash)
  | FSMap _ _ _ => raise (AttributeError "set_root")
  end.

Definition mapper_chunker (m : mapper_obj) : string :=
  match m with
  | IPLDStore _ chunker _ => chunker
  | FSMap _ _ _ => ""
  end.

(** [ipldstore.get_ipfs_mapper(chunker=...)]; without the argument the
    library's own default chunker is used. *)
Definition get_ipfs_mapper (chunker : option string) : M mapper_obj :=
  id <- fresh ;;
  emit (EvGetIpfsMapper chunker) ;;
  c <- match chunker with
       | Some c => ret c
       | None => gets w_default_chunker
       end ;;
  ret (IPLDStore id c None).

(** [IPLD.mapper(set_root, **kwargs)] *)
Definition IPLD_mapper (dm : DatasetManager) (set_root_arg : bool) : M mapper_obj :=
  mapper <- (if truthy (requested_ipfs_chunker dm) then
               get_ipfs_mapper (requested_ipfs_chunker dm)
             else
               get_ipfs_mapper None) ;;
  info ("IPFS chunker is " +:+ mapper_chunker mapper) ;;
  cond <- (if set_root_arg then h <- latest_hash ;; ret (truthy h)
           else ret false) ;;
  mapper <- (if cond then h <- latest_hash ;; set_root mapper h
             else ret mapper) ;;
  ret mapper.

(** [IPLD.has_existing] *)
Definition IPLD_has_existing (dm : DatasetManager) : M bool :=
  h <- latest_hash ;;
  ret (truthy h).

(** *** Local *)

(** [Local.path] *)
Definition Local_path (dm : DatasetManager) : string :=
  output_path dm +:+ "/" +:+ name dm +:+ ".zarr".

(** [Local.fs(refresh)] *)
Definition Local_fs (dm : DatasetManager) (refresh : bool) (self : Local_store)
  : M (filesystem * Local_store) :=
  self <- (if refresh || negb (hasattr (local_fs self)) then
             id <- fresh ;;
             emit EvLocalFilesystem ;;
             ret (MkLocal (Some (LocalFileSystem id)) (local_mapper self))
           else ret self) ;;
  fs <- getattr "_fs" (local_fs self) ;;
  ret (fs, self).

(** [Local.mapper(refresh, **kwargs)] *)
Definition Local_mapper (dm : DatasetManager) (refresh : bool) (self : Local_store)
  : M (mapper_obj * Local_store) :=
  self <- (if refresh || negb (hasattr (local_mapper self)) then
             r <- Local_fs dm false self ;;
             id <- fresh ;;
             emit (EvGetMapper (Local_path dm)) ;;
             ret (MkLocal (local_fs (snd r))
                          (Some (FSMap id (Local_path dm) (fst r))))
           else ret self) ;;
  m <- getattr "_mapper" (local_mapper self) ;;
  ret (m, self).

(** [Local.has_existing] *)
Definition Local_has_existing (dm : DatasetManager) : M bool :=
  emit (EvExists (Local_path dm)) ;;
  gets (fun w => bool_decide (Local_path dm ∈ w_existing w)).

(** *** The shared [mapper] contract

    Every variant accepts arbitrary keyword arguments; [S3] and [Local] read
    [refresh] (default [False]) and [IPLD] reads [set_root] (default [True]);
    a keyword a variant does not read is swallowed by its [**kwargs]. *)

Record mapper_kwargs := MapperKwargs {
  kw_refresh : option bool;
  kw_set_root : option bool
}.

Definition no_kwargs : mapper_kwargs := MapperKwargs None None.
Definition refresh_kwargs : mapper_kwargs := MapperKwargs (Some true) None.

Definition mapper (dm : DatasetManager) (kw : mapper_kwargs) (st : StoreInterface)
  : M (mapper_obj * StoreInterface) :=
  match st with
  | S3 s =>
      r <- S3_mapper dm (default false (kw_refresh kw)) s ;;
      ret (fst r, S3 (snd r))
  | IPLD =>
      m <- IPLD_mapper dm (default true (kw_set_root kw)) ;;
      ret (m, IPLD)
  | Local s =>
      r <- Local_mapper dm (default false (kw_refresh kw)) s ;;
      ret (fst r, Local (snd r))
  end.

Definition has_existing (dm : DatasetManager) (st : StoreInterface)
  : M (bool * StoreInterface) :=
  match st with
  | S3 s =>
      r <- S3_has_existing dm s ;;
      ret (fst r, S3 (snd r))
  | IPLD =>
      b <- IPLD_has_existing dm ;;
      ret (b, IPLD)
  | Local s =>
      b <- Local_has_existing dm ;;
      ret (b, Local s)
  end.

(** ** [DatasetManager.__init__] *)

Record init_args := InitArgs {
  a_requested_dask_chunks : gmap string Z;
  a_requested_zarr_chunks : gmap string Z;
  a_requested_ipfs_chunker : option string;
  a_rebuild_requested : bool;
  a_custom_output_path : option string;
  a_custom_latest_hash : option string;
  a_custom_input_path : option string;
  a_console_log : bool;
  a_global_log_level : Z;
  a_store : option string;
  a_s3_bucket_name : option string;
  a_allow_overwrite : bool
}.

Definition logging_DEBUG : Z := 10.

(** The store object for the [store] string: [None] is treated as "local". *)
Definition select_store (store : option string) (s3_bucket_name : option string)
  : M StoreInterface :=
  match store with
  | None => ret (Local (MkLocal None None))
  | Some s =>
      if String.eqb s "local" then ret (Local (MkLocal None None))
      else if String.eqb s "ipld" then ret IPLD
      else if String.eqb s "s3" then
        s3 <- S3_init s3_bucket_name ;; ret (S3 s3)
      else raise (ValueError "Store must be one of 'local', 'ipld', or 's3'")
  end.

(** [max(1, int(multiprocessing.cpu_count() * 0.75))]: the product is exact
    for any machine's CPU count, so the truncation is that of [3n/4]. *)
Definition default_num_threads (cpus : Z) : Z := Z.max 1 (Z.quot (3 * cpus) 4).

Definition DatasetManager_init (cls : source_class) (a : init_args)
  : M DatasetManager :=
  emit EvSuperInit ;;
  st <- select_store (a_store a) (a_s3_bucket_name a) ;;
  let overwrite := a_allow_overwrite a || is_IPLD st in
  when (a_console_log a) (emit EvLogToConsole) ;;
  emit (EvSetRootLogLevel (a_global_log_level a)) ;;
  emit EvSetExceptHook ;;
  emit EvCpuCount ;;
  cpus <- gets w_cpu_count ;;
  ret (MkDatasetManager cls [] (a_custom_output_path a)
         (a_custom_latest_hash a) (a_custom_input_path a)
         (a_rebuild_requested a) st overwrite
         (a_requested_dask_chunks a) (a_requested_zarr_chunks a)
         (a_requested_ipfs_chunker a)
         (12 # 10)%Q (65 # 100)%Q (65 # 100)%Q (92 # 100)%Q (98 # 100)%Q
         (default_num_threads cpus) 1%Z None).

(** ** [populate_metadata] *)

(** [d.update(other)] on a dictionary reference: the dictionary at [d] is
    changed in place and the call returns [None]. *)
Definition dict_update (d : nat) (other : pyref) : M pyref :=
  h <- gets w_heap ;;
  match h !! d, other with
  | Some target, PyDict o =>
      match h !! o with
      | Some src => set_heap (<[d := src ∪ target]> h) ;; ret PyNone
      | None => raise (TypeError "dangling reference")
      end
  | Some _, PyNone => raise (TypeError "'NoneType' object is not iterable")
  | None, _ => raise (TypeError "dangling reference")
  end.

Definition populate_metadata (self : DatasetManager) : M DatasetManager :=
  match metadata self with
  | Some (PyDict d) =>
      r <- dict_update d (static_metadata self) ;;
      ret (with_metadata self (Some r))
  | Some PyNone | None =>
      ret (with_metadata self (Some (static_metadata self)))
  end.

(** What [self.metadata] shows: nothing when the attribute is not there,
    [None], or the contents of the dictionary it refers to. *)
Inductive metadata_view :=
  | NoAttribute
  | IsNone
  | IsDict (d : pydict)
  | Dangling.

Definition view_metadata (w : world) (dm : DatasetManager) : metadata_view :=
  match metadata dm with
  | None => NoAttribute
  | Some PyNone => IsNone
  | Some (PyDict a) =>
      match w_heap w !! a with
      | Some d => IsDict d
      | None => Dangling
      end
  end.

(** ** Resolving a dataset name to its class *)

(** [cls.get_subclasses()]: for each direct subclass, its own subclasses
    first and then the subclass itself. *)
Fixpoint get_subclasses (cls : source_class) : list source_class :=
  match cls with
  | SourceClass _ _ _ subs =>
      flat_map (fun subclass => (get_subclasses subclass ++ [subclass])%list) subs
  end.

(** The loop of [get_dataset_manager_from_name] over the sources. *)
Fixpoint scan_sources (name : string) (sources : list source_class)
  : option source_class :=
  match sources with
  | [] => None
  | source :: rest =>
      if str_contains "gfs" name then
        if String.eqb (cls_json_key source) name then Some source
        else scan_sources name rest
      else
        if String.eqb (cls_name source) name then Some source
        else scan_sources name rest
  end.

Definition get_dataset_manager_from_name (self_cls : source_class) (name : string)
  : M (option source_class) :=
  match scan_sources name (get_subclasses self_cls) with
  | Some source => ret (Some source)
  | None =>
      emit (EvPrint ("failed to set manager from name " +:+ name
                     +:+ ", could not find corresponding class")) ;;
      ret None
  end.

(** ** [run_etl] *)

Record etl_args := EtlArgs {
  r_dataset_name : string;
  r_store : option string;
  r_s3_bucket_name : option string;
  r_rebuild : bool;
  r_only_parse : bool;
  r_only_update_input : bool;
  r_only_prepare_input : bool;
  r_only_metadata : bool;
  r_custom_output_path : option string;
  r_custom_latest_hash : option string
}.

(** A lifecycle method of the concrete source: the call is recorded and ends
    the way the source says it does. *)
Definition call_phase {A} (p : phase) (o : outcome A) : M A :=
  emit (EvPhase p) ;; lift o.

(** [dataset_class(store=..., s3_bucket_name=..., custom_output_path=...,
    custom_latest_hash=..., rebuild=...)].  Calling [None] raises.  A source
    class passes its own chunk sizes to [DatasetManager.__init__] along with
    the keywords; [rebuild] is not one of its named parameters and ends up
    in [**kwargs]. *)
Definition instantiate (dataset_class : option source_class) (a : etl_args)
  : M DatasetManager :=
  match dataset_class with
  | None => raise (TypeError "'NoneType' object is not callable")
  | Some cls =>
      DatasetManager_init cls
        (InitArgs (src_requested_dask_chunks (cls_impl cls))
                  (src_requested_zarr_chunks (cls_impl cls))
                  (src_requested_ipfs_chunker (cls_impl cls))
                  false (r_custom_output_path a) (r_custom_latest_hash a)
                  None true logging_DEBUG (r_store a) (r_s3_bucket_name a)
                  false)
  end.

(** The part of [run_etl] that follows the creation of the manager.  The
    first block yields the parse trigger and whether the body ended there
    through its early [return]. *)
Definition run_phases (manager : DatasetManager) (a : etl_args) : M unit :=
  let impl := cls_impl (dm_class manager) in
  let trigger_parse := r_only_parse a in
  r <- (if r_only_parse a then
          info "only parse flag present,skipping update of local input and using locally available data" ;;
          ret (trigger_parse, false)
        else if r_only_metadata a then
          info "only metadata flag present,skipping update of local input and parse to update metadata using the existing Zarr on IPFS" ;;
          ret (trigger_parse, false)
        else
          info "updating local input" ;;
          trigger_parse <- call_phase UpdateLocalInput (src_update_local_input impl) ;;
          if r_only_update_input a then
            info "ending here because only update local input flag is set" ;;
            ret (trigger_parse, true)
          else ret (trigger_parse, false)) ;;
  let trigger_parse := fst r in
  if snd r then ret tt   (* return *)
  else
    when (r_only_metadata a)
      (info ("preparing metadata for " +:+ name manager) ;;
       call_phase OnlyUpdateMetadata (src_only_update_metadata impl) ;;
       info ("Metadata for " +:+ name manager +:+ " successfully updated")) ;;
    when (r_only_prepare_input a)
      (info "Only prepare input requested, just preparing source files for parsing and creating corresponding Zarr JSON file" ;;
       call_phase PrepareInputFiles (src_prepare_input_files impl) ;;
       call_phase CreateZarrJson (src_create_zarr_json impl)) ;;
    if trigger_parse then
      info ("parsing " +:+ name manager) ;;
      parsed <- call_phase Parse (src_parse impl) ;;
      if parsed then
        info ("Data for " +:+ name manager +:+ " successfully parsed")
      else
        info "no new data parsed, ending here"
    else
      info "no new data detected and parse not set to force, ending here".

Definition run_etl (self_cls : source_class) (a : etl_args) : M unit :=
  dataset_class <- get_dataset_manager_from_name self_cls (r_dataset_name a) ;;
  manager <- instantiate dataset_class a ;;
  emit (EvLogToFile None) ;;
  emit (EvLogToFile (Some logging_DEBUG)) ;;
  run_phases manager a.

(** ** The rest of the store interfaces *)

(** How an f-string shows a value that is a string or [None]. *)
Definition py_format (v : option string) : string :=
  match v with
  | Some s => s
  | None => "None"
  end.

(** [S3.__str__] *)
Definition S3_str (dm : DatasetManager) (self : S3_store) : string :=
  S3_url dm self.

(** [IPLD.__str__] *)
Definition IPLD_str (dm : DatasetManager) : M string :=
  h <- latest_hash ;;
  if negb (truthy h) then ret "/ipfs/"
  else
    h <- latest_hash ;;
    ret ("/ipfs/" +:+ py_format h).

(** [Local.__str__] *)
Definition Local_str (dm : DatasetManager) : string := Local_path dm.

(** The result of [xr.open_zarr(mapper)]: the dataset read through that
    mapper. *)
Inductive xr_Dataset :=
  | open_zarr (m : mapper_obj).

(** [StoreInterface.dataset], with the keywords it passes on to [mapper] *)
Definition dataset (dm : DatasetManager) (kw : mapper_kwargs) (st : StoreInterface)
  : M (option xr_Dataset * StoreInterface) :=
  r <- has_existing dm st ;;
  if fst r then
    m <- mapper dm kw (snd r) ;;
    ret (Some (open_zarr (fst m)), snd m)
  else
    ret (None, snd r).

(** The generic [fs(refresh)] of the stores that have one. *)
Definition fs (dm : DatasetManager) (refresh : bool) (st : StoreInterface)
  : M (filesystem * StoreInterface) :=
  match st with
  | S3 s =>
      r <- S3_fs dm refresh s ;;
      ret (fst r, S3 (snd r))
  | Local s =>
      r <- Local_fs dm refresh s ;;
      ret (fst r, Local (snd r))
  | IPLD => raise (AttributeError "fs")
  end.

(** The cached filesystem of a store, if it has one. *)
Definition cached_fs (st : StoreInterface) : option filesystem :=
  match st with
  | S3 s => s3_fs s
  | IPLD => None
  | Local s => local_fs s
  end.

(** ** Identity of a manager: [__str__], [__eq__], [__hash__] *)

(** The objects a manager gets compared with. *)
Inductive pyobj :=
  | ObjNone
  | ObjStr (s : string)
  | ObjManager (dm : DatasetManager).

(** [DatasetManager.__str__] *)
Definition DatasetManager_str (self : DatasetManager) : string := name self.

(** [str.__eq__(s, other)]: [None] stands for [NotImplemented]. *)
Definition str_eq (s : string) (other : pyobj) : option bool :=
  match other with
  | ObjStr t => Some (String.eqb s t)
  | _ => None
  end.

(** [DatasetManager.__eq__]: [str(self) == other].  The left operand is a
    [str]; when [str.__eq__] does not know the other object, Python asks the
    other object with the operands swapped, and, failing that, compares
    identities (a new string is no other object). *)
Definition DatasetManager_eq (self : DatasetManager) (other : pyobj) : bool :=
  match str_eq (DatasetManager_str self) other with
  | Some b => b
  | None =>
      match other with
      | ObjManager o =>
          (* o.__eq__(str(self)), that is str(o) == str(self) *)
          default false (str_eq (DatasetManager_str o)
                                (ObjStr (DatasetManager_str self)))
      | _ => false
      end
  end.

(** [DatasetManager.__hash__], for the interpreter's hash of strings. *)
Definition DatasetManager_hash (hash : string → Z) (self : DatasetManager) : Z :=
  hash (DatasetManager_str self).

(** ** The command line ([command_line_args], [parse_command_line],
    [run_etl_as_script]) *)

(** The [type] callables given to [add_argument]. *)
Inductive conversion :=
  | fromisoformat
  | float.

(** The options of an argument that decide what [argparse] stores for it
    (help texts and metavars only show in the usage message). *)
Record arg_opts := ArgOpts {
  opt_action : option string;
  opt_nargs : option nat;
  opt_type : option conversion
}.

Definition plain : arg_opts := ArgOpts None None None.
Definition store_true : arg_opts := ArgOpts (Some "store_true") None None.

(** [command_line_args], in the order of the dictionary. *)
Definition command_line_args : list (string * arg_opts) :=
  [ ("source", plain);
    ("store", plain);
    ("--s3-bucket", plain);
    ("--rebuild", store_true);
    ("--date-range", ArgOpts None (Some 2) (Some fromisoformat));
    ("--latitude-range", ArgOpts None (Some 2) (Some float));
    ("--longitude-range", ArgOpts None (Some 2) (Some float));
    ("--only-parse", store_true);
    ("--only-metadata", store_true);
    ("--only-update-input", store_true);
    ("--only-prepare-input", store_true);
    ("--local-output", store_true);
    ("--custom-output-path", plain);
    ("--custom-head-metadata", plain);
    ("--custom-latest-hash", plain);
    ("--era5-enable-caching", store_true);
    ("--era5-skip-finalization", store_true) ].

(** The attribute name [argparse] derives from an argument: a positional
    keeps its name, an option loses its leading dashes and has the other
    dashes turned into underscores. *)
Definition dash : Ascii.ascii := Ascii.ascii_of_nat 45.
Definition underscore : Ascii.ascii := Ascii.ascii_of_nat 95.

Fixpoint lstrip_dashes (s : string) : string :=
  match s with
  | EmptyString => EmptyString
  | String c rest => if Ascii.eqb c dash then lstrip_dashes rest else s
  end.

Fixpoint dashes_to_underscores (s : string) : string :=
  match s with
  | EmptyString => EmptyString
  | String c rest =>
      String (if Ascii.eqb c dash then underscore else c)
             (dashes_to_underscores rest)
  end.

Definition dest (argument : string) : string :=
  if String.prefix "-" argument
  then dashes_to_underscores (lstrip_dashes argument)
  else argument.

(** A value [argparse] stores: [None], a boolean (for [store_true]), a
    string, or the list of an argument with [nargs] (the converted items
    are kept as written). *)
Inductive argval :=
  | ArgNone
  | ArgBool (b : bool)
  | ArgStr (s : string)
  | ArgList (items : list string).

(** What the user wrote on a command line that [argparse] accepts: both
    positionals, and each option given or not. *)
Record command_line := CommandLine {
  cl_source : string;
  cl_store : string;
  cl_s3_bucket : option string;
  cl_rebuild : bool;
  cl_date_range : option (string * string);
  cl_latitude_range : option (string * string);
  cl_longitude_range : option (string * string);
  cl_only_parse : bool;
  cl_only_metadata : bool;
  cl_only_update_input : bool;
  cl_only_prepare_input : bool;
  cl_local_output : bool;
  cl_custom_output_path : option string;
  cl_custom_head_metadata : option string;
  cl_custom_latest_hash : option string;
  cl_era5_enable_caching : bool;
  cl_era5_skip_finalization : bool
}.

Definition of_option (v : option string) : argval :=
  match v with
  | Some s => ArgStr s
  | None => ArgNone
  end.

Definition of_pair (v : option (string * string)) : argval :=
  match v with
  | Some (x, y) => ArgList [x; y]
  | None => ArgNone
  end.

(** The value [argparse] stores for an argument of [command_line_args]. *)
Definition parsed_value (cl : command_line) (argument : string) : argval :=
  if String.eqb argument "source" then ArgStr (cl_source cl)
  else if String.eqb argument "store" then ArgStr (cl_store cl)
  else if String.eqb argument "--s3-bucket" then of_option (cl_s3_bucket cl)
  else if String.eqb argument "--rebuild" then ArgBool (cl_rebuild cl)
  else if String.eqb argument "--date-range" then of_pair (cl_date_range cl)
  else if String.eqb argument "--latitude-range"
       then of_pair (cl_latitude_range cl)
  else if String.eqb argument "--longitude-range"
       then of_pair (cl_longitude_range cl)
  else if String.eqb argument "--only-parse" then ArgBool (cl_only_parse cl)
  else if String.eqb argument "--only-metadata"
       then ArgBool (cl_only_metadata cl)
  else if String.eqb argument "--only-update-input"
       then ArgBool (cl_only_update_input cl)
  else if String.eqb argument "--only-prepare-input"
       then ArgBool (cl_only_prepare_input cl)
  else if String.eqb argument "--local-output"
       then ArgBool (cl_local_output cl)
  else if String.eqb argument "--custom-output-path"
       then of_option (cl_custom_output_path cl)
  else if String.eqb argument "--custom-head-metadata"
       then of_option (cl_custom_head_metadata cl)
  else if String.eqb argument "--custom-latest-hash"
       then of_option (cl_custom_latest_hash cl)
  else if String.eqb argument "--era5-enable-caching"
       then ArgBool (cl_era5_enable_caching cl)
  else if String.eqb argument "--era5-skip-finalization"
       then ArgBool (cl_era5_skip_finalization cl)
  else ArgNone.

(** [parse_command_line]: the parser built from [command_line_args] reads
    the command line, and [vars] turns its result into a dictionary. *)
Definition parse_command_line (cl : command_line) : gmap string argval :=
  list_to_map
    (map (λ arg, (dest (fst arg), parsed_value cl (fst arg)))
         command_line_args).

(** Truthiness of a stored value. *)
Definition truthy_arg (v : argval) : bool :=
  match v with
  | ArgNone => false
  | ArgBool b => b
  | ArgStr s => negb (String.eqb s "")
  | ArgList items => negb (bool_decide (items = []))
  end.

(** A stored value read where [run_etl] expects a string or [None]; the
    parser stores nothing else under the names concerned. *)
Definition as_option (v : argval) : option string :=
  match v with
  | ArgStr s => Some s
  | _ => None
  end.

(** The call [self.run_etl(dataset_name, **kwargs)]: each named parameter
    of [run_etl] takes the keyword of its own name or else its default, a
    missing [store] or a second value for [dataset_name] is a [TypeError],
    and the keywords that name no parameter end up in the [**kwargs] of
    [run_etl], which it does not read. *)
Definition call_run_etl (self_cls : source_class) (dataset_name : argval)
    (kwargs : gmap string argval) : M unit :=
  match kwargs !! "dataset_name" with
  | Some _ =>
      raise (TypeError "run_etl() got multiple values for argument 'dataset_name'")
  | None =>
      match kwargs !! "store" with
      | None =>
          raise (TypeError "run_etl() missing 1 required positional argument: 'store'")
      | Some store =>
          let keyword (k : string) (dflt : argval) : argval :=
            default dflt (kwargs !! k) in
          match dataset_name with
          | ArgStr name =>
              run_etl self_cls
                (EtlArgs name (as_option store)
                   (as_option (keyword "s3_bucket_name" ArgNone))
                   (truthy_arg (keyword "rebuild" (ArgBool false)))
                   (truthy_arg (keyword "only_parse" (ArgBool false)))
                   (truthy_arg (keyword "only_update_input" (ArgBool false)))
                   (truthy_arg (keyword "only_prepare_input" (ArgBool false)))
                   (truthy_arg (keyword "only_metadata" (ArgBool false)))
                   (as_option (keyword "custom_output_path" ArgNone))
                   (as_option (keyword "custom_latest_hash" ArgNone)))
          | _ =>
              raise (TypeError "argument of type is not iterable")
          end
      end
  end.

(** [run_etl_as_script] *)
Definition run_etl_as_script (self_cls : source_class) (cl : command_line)
  : M unit :=
  let generate_kwargs := parse_command_line cl in
  match generate_kwargs !! "source" with
  | None => raise (KeyError "source")
  | Some dataset_name =>
      let generate_kwargs := delete "source" generate_kwargs in
      call_run_etl self_cls dataset_name generate_kwargs
  end.

(** ** Sample sources and worlds *)

Module Examples.

Definition impl (update parse : outcome bool) : source_impl :=
  SourceImpl {[ "time" := 200%Z ]} {[ "time" := 5000%Z ]} None (PyDict 0)
             "/data/output" update (Returned tt) (Returned tt)
             (Returned tt) parse.

Definition chirps_final_05 : source_class :=
  SourceClass "chirps_final_05" "chirps_final_05-daily"
              (impl (Returned true) (Returned true)) [].

Definition chirps : source_class :=
  SourceClass "chirps" "chirps-daily"
              (impl (Returned false) (Returned false)) [chirps_final_05].

Definition gfs : source_class :=
  SourceClass "gfs" "gfs_temperature-hourly"
              (impl (Returned true) (Returned true)) [].

Definition root : source_class :=
  SourceClass "" "" (impl (Returned false) (Returned false)) [chirps; gfs].

(** A world with one dictionary, at address 0, holding the static
    metadata of the sample sources. *)
Definition w0 : world :=
  World [] 1 {[ 0%nat := {[ "title" := "CHIRPS" ]} ]} ∅ 8 None
        "size-262144" ∅.

(** The same world once a hash has been published for the dataset. *)
Definition w_published : world :=
  World [] 1 {[ 0%nat := {[ "title" := "CHIRPS" ]} ]} ∅ 8
        (Some "bafyreib4") "size-262144" ∅.

Definition init_with (store s3_bucket : option string) (allow_overwrite : bool)
  : init_args :=
  InitArgs {[ "time" := 200%Z ]} {[ "time" := 5000%Z ]} None false None None
           None true logging_DEBUG store s3_bucket allow_overwrite.

Definition flags (only_parse only_update_input only_prepare_input
                  only_metadata : bool) : etl_args :=
  EtlArgs "chirps_final_05" (Some "local") None false only_parse
          only_update_input only_prepare_input only_metadata None None.

(** A manager as [__init__] leaves it, bound to [st]. *)
Definition manager (st : StoreInterface) : DatasetManager :=
  MkDatasetManager chirps_final_05 [] None None None false st (is_IPLD st)
    {[ "time" := 200%Z ]} {[ "time" := 5000%Z ]} None
    (12 # 10)%Q (65 # 100)%Q (65 # 100)%Q (92 # 100)%Q (98 # 100)%Q
    6%Z 1%Z None.

End Examples.

(** ** More sample sources *)

Module MoreExamples.

Definition unreachable : exn := PhaseFailure "remote unreachable".

(** A source whose update fails. *)
Definition flaky : source_class :=
  SourceClass "flaky" "flaky-daily"
              (Examples.impl (Raised unreachable) (Returned true)) [].

Definition root : source_class :=
  SourceClass "" "" (Examples.impl (Returned false) (Returned false))
              [Examples.chirps; flaky].

Definition run_of (dataset_name : string) (store : option string) : etl_args :=
  EtlArgs dataset_name store None false false false false false None None.

(** A manager of class [cls] as [__init__] leaves it, bound to [st]. *)
Definition manager_of (cls : source_class) (st : StoreInterface)
  : DatasetManager :=
  MkDatasetManager cls [] None None None false st (is_IPLD st)
    {[ "time" := 200%Z ]} {[ "time" := 5000%Z ]} None
    (12 # 10)%Q (65 # 100)%Q (65 # 100)%Q (92 # 100)%Q (98 # 100)%Q
    6%Z 1%Z None.

(** A world where a dictionary at address 1 already holds draft metadata. *)
Definition static : pydict := {[ "title" := "CHIRPS" ]}.
Definition draft : pydict := {[ "title" := "draft"; "license" := "CC-BY" ]}.
Definition w_draft : world :=
  with_heap Examples.w0 {[ 0%nat := static; 1%nat := draft ]}.

End MoreExamples.

(** * Vocabulary of the statements *)

(** The two configuration errors of construction. *)
Definition bucket_error : exn :=
  ValueError "Must provide bucket name if parsing to S3".

Definition store_error : exn :=
  ValueError "Store must be one of 'local', 'ipld', or 's3'".

(** The events of a construction that goes through. *)
Definition init_events (a : init_args) : list event :=
  [EvSuperInit] ++ (if a_console_log a then [EvLogToConsole] else [])
  ++ [EvSetRootLogLevel (a_global_log_level a); EvSetExceptHook; EvCpuCount].

(** Whether a store object is an instance of the class a [store] string
    names. *)
Definition store_has_type (s : string) (st : StoreInterface) : bool :=
  if String.eqb s "local" then is_Local st
  else if String.eqb s "ipld" then is_IPLD st
  else if String.eqb s "s3" then is_S3 st
  else false.

(** The arguments [a] with another [store] selector. *)
Definition with_a_store (a : init_args) (store : option string) : init_args :=
  InitArgs (a_requested_dask_chunks a) (a_requested_zarr_chunks a)
           (a_requested_ipfs_chunker a) (a_rebuild_requested a)
           (a_custom_output_path a) (a_custom_latest_hash a)
           (a_custom_input_path a) (a_console_log a) (a_global_log_level a)
           store (a_s3_bucket_name a) (a_allow_overwrite a).

(** [c] is a subclass of [cls], at any depth. *)
Inductive descendant : source_class → source_class → Prop :=
  | descendant_child cls sub :
      In sub (cls_subclasses cls) → descendant cls sub
  | descendant_below cls sub c :
      In sub (cls_subclasses cls) → descendant sub c → descendant cls c.

(** The attribute a name is compared against. *)
Definition lookup_key (name : string) : source_class → string :=
  if str_contains "gfs" name then cls_json_key else cls_name.

(** What [get_dataset_manager_from_name] prints when no class matches. *)
Definition resolution_failure (name : string) : event :=
  EvPrint ("failed to set manager from name " +:+ name
           +:+ ", could not find corresponding class").

(** A latest hash can be resolved for the dataset: [latest_hash()] answers
    a non-empty string. *)
Definition hash_resolvable (w : world) : Prop :=
  ∃ h, w_latest_hash w = Some h ∧ h ≠ "".

(** The mapper [ipldstore.get_ipfs_mapper] hands out in world [w] for the
    manager's chunker setting, before any root is set. *)
Definition unrooted_mapper (dm : DatasetManager) (w : world) : mapper_obj :=
  IPLDStore (w_next w)
            (if truthy (requested_ipfs_chunker dm)
             then default "" (requested_ipfs_chunker dm)
             else w_default_chunker w)
            None.

(** [c] only ever adds events to the trace, and the events it adds
    satisfy [P]. *)
Definition traces (P : list event → Prop) {A} (c : M A) : Prop :=
  ∀ w, ∃ evs, w_trace (snd (c w)) = w_trace w ++ evs ∧ P evs.

(** No lifecycle method of the source is invoked. *)
Definition no_phase (evs : list event) : Prop := phases_of evs = [].

(** The beginning of [run_etl], up to the point where the manager exists
    and its log files are set up. *)
Definition make_manager (self_cls : source_class) (a : etl_args)
  : M DatasetManager :=
  dataset_class <- get_dataset_manager_from_name self_cls (r_dataset_name a) ;;
  manager <- instantiate dataset_class a ;;
  emit (EvLogToFile None) ;;
  emit (EvLogToFile (Some logging_DEBUG)) ;;
  ret manager.

(** [c] does not look at the world: in any world it ends with [r] after
    recording the events [evs]. *)
Definition runs {A} (c : M A) (r : outcome A) (evs : list event) : Prop :=
  ∀ w, c w = (r, add_events w evs).

(** What a run restricted to the update of the local input records once
    the manager exists. *)
Definition only_update_input_events : list event :=
  [EvInfo "updating local input"; EvPhase UpdateLocalInput;
   EvInfo "ending here because only update local input flag is set"].


(** The events that open a connection to a filesystem. *)
Definition is_connect (e : event) : bool :=
  match e with
  | EvS3Connect _ | EvLocalFilesystem => true
  | _ => false
  end.

(** The events that create a mapper. *)
Definition is_mapper_creation (e : event) : bool :=
  match e with
  | EvS3Map _ | EvGetMapper _ | EvGetIpfsMapper _ => true
  | _ => false
  end.

(** What [has_existing] answers for store [st] in world [w]. *)
Definition exists_on (dm : DatasetManager) (st : StoreInterface) (w : world)
  : bool :=
  match st with
  | S3 s => bool_decide (S3_url dm s ∈ w_existing w)
  | IPLD => truthy (w_latest_hash w)
  | Local _ => bool_decide (Local_path dm ∈ w_existing w)
  end.

(** The filesystem a mapper goes through, for the mappers that have one. *)
Definition mapper_fs (m : mapper_obj) : option filesystem :=
  match m with
  | FSMap _ _ fs => Some fs
  | IPLDStore _ _ _ => None
  end.


(** How many times the latest hash was asked for in a trace. *)
Definition latest_hash_calls (tr : list event) : nat :=
  length (filter (λ e, is_latest_hash e = true) tr).

(** The order in which [run_etl] goes through the lifecycle methods. *)
Definition lifecycle_order : list phase :=
  [UpdateLocalInput; OnlyUpdateMetadata; PrepareInputFiles; CreateZarrJson;
   Parse].

(** Lifecycle method [p] of the source raises [e]. *)
Definition phase_raises (impl : source_impl) (p : phase) (e : exn) : Prop :=
  match p with
  | UpdateLocalInput => src_update_local_input impl = Raised e
  | OnlyUpdateMetadata => src_only_update_metadata impl = Raised e
  | PrepareInputFiles => src_prepare_input_files impl = Raised e
  | CreateZarrJson => src_create_zarr_json impl = Raised e
  | Parse => src_parse impl = Raised e
  end.

(** What an ordinary run records when the update finds nothing new. *)
Definition nothing_new_events : list event :=
  [EvInfo "updating local input"; EvPhase UpdateLocalInput;
   EvInfo "no new data detected and parse not set to force, ending here"].

(** Calling [None] as if it were a class. *)
Definition not_callable : exn := TypeError "'NoneType' object is not callable".

(** The number of classes in the tree below and including [cls]. *)
Fixpoint cls_size (cls : source_class) : nat :=
  match cls with
  | SourceClass _ _ _ subs => S (list_sum (map cls_size subs))
  end.

(** Where a path-addressed store keeps the Zarr: what [str(store)] shows. *)
Definition store_location (dm : DatasetManager) (st : StoreInterface)
  : option string :=
  match st with
  | S3 s => Some (S3_str dm s)
  | Local _ => Some (Local_str dm)
  | IPLD => None
  end.

(** What [run_etl_as_script] passes on to [run_etl]. *)
Definition script_args (cl : command_line) : etl_args :=
  EtlArgs (cl_source cl) (Some (cl_store cl)) None (cl_rebuild cl)
          (cl_only_parse cl) (cl_only_update_input cl)
          (cl_only_prepare_input cl) (cl_only_metadata cl)
          (cl_custom_output_path cl) (cl_custom_latest_hash cl).

(** * Properties *)

(** ** Traces *)

Lemma emit_add_events e w : emit e w = (Returned tt, add_events w [e]).
Proof. reflexivity. Qed.

Lemma add_events_app w l k :
  add_events (add_events w l) k = add_events w (l ++ k).
Proof. unfold add_events; simpl. by rewrite <- (assoc_L (++)). Qed.

Lemma add_events_nil w : add_events w [] = w.
Proof. destruct w; unfold add_events; simpl. by rewrite (right_id_L [] (++)). Qed.

Lemma new_events_add_events {A} (c : M A) w r evs :
  c w = (r, add_events w evs) → new_events c w = evs.
Proof.
  intros Hc. unfold new_events. rewrite Hc. simpl. apply drop_app_length.
Qed.

Lemma new_events_unchanged {A} (c : M A) w r :
  c w = (r, w) → new_events c w = [].
Proof.
  intros Hc. apply (new_events_add_events c w r). by rewrite add_events_nil.
Qed.

(** Bring a world built by successive [emit]s to the form
    [World (w_trace w ++ events) ...]. *)
Ltac norm_world :=
  unfold add_events; simpl; rewrite <- ?(assoc_L (++)); simpl.

(** ** Construction of the stores and of the manager *)

Lemma truthy_Some s : s ≠ "" → truthy (Some s) = true.
Proof.
  intros Hs. unfold truthy. by apply String.eqb_neq in Hs as ->.
Qed.

Lemma truthy_true v : truthy v = true → ∃ s, v = Some s ∧ s ≠ "".
Proof.
  destruct v as [s|]; simpl; [|discriminate].
  intros Hs. exists s. split; [done|].
  apply String.eqb_neq. by destruct (String.eqb s "").
Qed.

Lemma S3_init_ok bucket w :
  bucket ≠ "" → S3_init (Some bucket) w = (Returned (MkS3 bucket None None), w).
Proof.
  intros Hb. unfold S3_init. by rewrite (truthy_Some _ Hb).
Qed.

Lemma S3_init_fails bucket w :
  truthy bucket = false → S3_init bucket w = (Raised bucket_error, w).
Proof. intros Hb. unfold S3_init. by rewrite Hb. Qed.

(** C9: building the S3 store with [None] or an empty bucket name raises the
    configuration error and leaves the world untouched (nothing was called);
    with a non-empty bucket the store is built, again without any call, and
    its [url] is [s3://<bucket>/datasets/<json_key>.zarr] for the json key of
    the manager it is bound to. *)
Theorem S3_init_bucket_and_url (dm : DatasetManager) (w : world) :
  S3_init None w = (Raised bucket_error, w)
  ∧ S3_init (Some "") w = (Raised bucket_error, w)
  ∧ ∀ bucket, bucket ≠ "" →
      ∃ s, S3_init (Some bucket) w = (Returned s, w)
           ∧ S3_url dm s
             = "s3://" +:+ bucket +:+ "/datasets/" +:+ json_key dm +:+ ".zarr".
Proof.
  repeat split.
  intros bucket Hb. exists (MkS3 bucket None None).
  split; [by apply S3_init_ok | reflexivity].
Qed.

Lemma S3_init_bucket_and_url_witness :
  ∃ s, S3_init (Some "arbol-zarrs") Examples.w0 = (Returned s, Examples.w0)
       ∧ S3_url (Examples.manager (S3 (MkS3 "arbol-zarrs" None None))) s
         = "s3://arbol-zarrs/datasets/chirps_final_05-daily.zarr".
Proof.
  apply (proj2 (proj2 (S3_init_bucket_and_url
                         (Examples.manager (S3 (MkS3 "arbol-zarrs" None None)))
                         Examples.w0)) "arbol-zarrs").
  discriminate.
Defined.

(** [select_store] never touches the world. *)
Lemma select_store_world store bucket w :
  snd (select_store store bucket w) = w.
Proof.
  unfold select_store. destruct store as [s|]; [|done].
  destruct (String.eqb s "local"); [done|].
  destruct (String.eqb s "ipld"); [done|].
  destruct (String.eqb s "s3"); [|done].
  unfold bind, S3_init. by destruct (negb (truthy bucket)).
Qed.

Lemma select_store_other s bucket w :
  s ≠ "local" → s ≠ "ipld" → s ≠ "s3" →
  select_store (Some s) bucket w = (Raised store_error, w).
Proof.
  intros H1 H2 H3. unfold select_store.
  apply String.eqb_neq in H1 as ->.
  apply String.eqb_neq in H2 as ->.
  by apply String.eqb_neq in H3 as ->.
Qed.

Lemma init_selected cls a w st :
  select_store (a_store a) (a_s3_bucket_name a) (add_events w [EvSuperInit])
  = (Returned st, add_events w [EvSuperInit]) →
  ∃ m, DatasetManager_init cls a w = (Returned m, add_events w (init_events a))
       ∧ store m = st
       ∧ overwrite_allowed m = a_allow_overwrite a || is_IPLD st
       ∧ dm_class m = cls.
Proof.
  intros Hsel. unfold DatasetManager_init, bind.
  rewrite emit_add_events, Hsel. unfold init_events, when.
  destruct (a_console_log a); simpl; eexists;
    (split; [norm_world; reflexivity|done]).
Qed.

Lemma init_failed cls a w e :
  select_store (a_store a) (a_s3_bucket_name a) (add_events w [EvSuperInit])
  = (Raised e, add_events w [EvSuperInit]) →
  DatasetManager_init cls a w = (Raised e, add_events w [EvSuperInit]).
Proof.
  intros Hsel. unfold DatasetManager_init, bind.
  by rewrite emit_add_events, Hsel.
Qed.

(** C3, as the code has it: "local" and "ipld" always bind a [Local] and an
    [IPLD] store, "s3" binds an [S3] store when a non-empty bucket name comes
    with it and raises the bucket error otherwise, and any other string
    raises the [ValueError] that names the accepted values; when construction
    raises, only the parent initialiser has run: no store, network or file
    system call was made. *)
Theorem DatasetManager_init_store_selection
    (cls : source_class) (a : init_args) (w : world) (s : string) :
  a_store a = Some s →
  (s = "local" ∨ s = "ipld"
   ∨ (s = "s3" ∧ truthy (a_s3_bucket_name a) = true) →
   ∃ m w', DatasetManager_init cls a w = (Returned m, w')
           ∧ store_has_type s (store m) = true)
  ∧ (s = "s3" → truthy (a_s3_bucket_name a) = false →
     DatasetManager_init cls a w
     = (Raised bucket_error, add_events w [EvSuperInit]))
  ∧ (s ≠ "local" → s ≠ "ipld" → s ≠ "s3" →
     DatasetManager_init cls a w
     = (Raised store_error, add_events w [EvSuperInit])
     ∧ new_events (DatasetManager_init cls a) w = [EvSuperInit]
     ∧ Forall (λ e, is_store_io e = false)
              (new_events (DatasetManager_init cls a) w)).
Proof.
  intros Hs. split; [|split].
  - intros Hcase.
    assert (∃ st, select_store (a_store a) (a_s3_bucket_name a)
                    (add_events w [EvSuperInit])
                  = (Returned st, add_events w [EvSuperInit])
                  ∧ store_has_type s st = true) as (st & Hsel & Hty).
    { rewrite Hs. destruct Hcase as [-> | [-> | [-> Hb]]].
      - by exists (Local (MkLocal None None)).
      - by exists IPLD.
      - apply truthy_true in Hb as (b & Hb & Hne).
        exists (S3 (MkS3 b None None)). split; [|done].
        unfold select_store; simpl. unfold bind.
        by rewrite Hb, (S3_init_ok _ _ Hne). }
    destruct (init_selected cls a w st Hsel) as (m & Hm & Hst & _).
    exists m, (add_events w (init_events a)). by rewrite Hst.
  - intros -> Hb. apply init_failed. rewrite Hs.
    unfold select_store; simpl. unfold bind.
    by rewrite (S3_init_fails _ _ Hb).
  - intros H1 H2 H3.
    assert (DatasetManager_init cls a w
            = (Raised store_error, add_events w [EvSuperInit])) as Hrun.
    { apply init_failed. rewrite Hs. by apply select_store_other. }
    split; [exact Hrun|].
    rewrite (new_events_add_events _ _ _ _ Hrun).
    split; [done|]. by repeat constructor.
Qed.

Lemma DatasetManager_init_store_selection_witness :
  (∃ m w', DatasetManager_init Examples.chirps
             (Examples.init_with (Some "s3") (Some "arbol-zarrs") false)
             Examples.w0 = (Returned m, w')
           ∧ store_has_type "s3" (store m) = true)
  ∧ new_events (DatasetManager_init Examples.chirps
                  (Examples.init_with (Some "gcs") None false)) Examples.w0
    = [EvSuperInit].
Proof.
  split.
  - apply (DatasetManager_init_store_selection Examples.chirps
             (Examples.init_with (Some "s3") (Some "arbol-zarrs") false)
             Examples.w0 "s3" eq_refl).
    right; right. split; reflexivity.
  - apply (DatasetManager_init_store_selection Examples.chirps
             (Examples.init_with (Some "gcs") None false)
             Examples.w0 "gcs" eq_refl); discriminate.
Defined.

(** C3 as stated fails: with [store="s3"] and the default
    [s3_bucket_name=None] no manager is built. *)
Lemma store_s3_without_bucket_raises :
  ¬ (∀ cls a w s,
       a_store a = Some s → s = "local" ∨ s = "ipld" ∨ s = "s3" →
       ∃ m w', DatasetManager_init cls a w = (Returned m, w')
               ∧ store_has_type s (store m) = true).
Proof.
  intros Hall.
  destruct (Hall Examples.chirps (Examples.init_with (Some "s3") None false)
              Examples.w0 "s3" eq_refl) as (m & w' & Hrun & _); [auto|].
  vm_compute in Hrun. discriminate Hrun.
Qed.

(** C10: with [store=None] construction goes through and binds a [Local]
    store; the manager and the world are those that [store="local"] gives. *)
Theorem store_None_binds_Local (cls : source_class) (a : init_args) (w : world) :
  DatasetManager_init cls (with_a_store a None) w
  = DatasetManager_init cls (with_a_store a (Some "local")) w
  ∧ ∃ m w', DatasetManager_init cls (with_a_store a None) w = (Returned m, w')
            ∧ store m = Local (MkLocal None None).
Proof.
  split; [reflexivity|].
  destruct (init_selected cls (with_a_store a None) w
              (Local (MkLocal None None)) eq_refl) as (m & Hm & Hst & _).
  by exists m, (add_events w (init_events (with_a_store a None))).
Qed.

(** A construction that returns went through [select_store]. *)
Lemma init_returned cls a w m w' :
  DatasetManager_init cls a w = (Returned m, w') →
  select_store (a_store a) (a_s3_bucket_name a) (add_events w [EvSuperInit])
  = (Returned (store m), add_events w [EvSuperInit])
  ∧ overwrite_allowed m = a_allow_overwrite a || is_IPLD (store m)
  ∧ dm_class m = cls
  ∧ w' = add_events w (init_events a).
Proof.
  intros Hrun.
  pose proof (select_store_world (a_store a) (a_s3_bucket_name a)
                (add_events w [EvSuperInit])) as Hw.
  destruct (select_store (a_store a) (a_s3_bucket_name a)
              (add_events w [EvSuperInit])) as [[st|e] w1] eqn:Hsel;
    simpl in Hw; subst w1.
  - destruct (init_selected cls a w st Hsel) as (m' & Hm' & Hst & Hov & Hcls).
    rewrite Hm' in Hrun. injection Hrun as <- <-.
    by rewrite Hst.
  - rewrite (init_failed cls a w e Hsel) in Hrun. discriminate Hrun.
Qed.

Lemma select_store_IPLD store bucket w st w' :
  select_store store bucket w = (Returned st, w') →
  is_IPLD st = true ↔ store = Some "ipld".
Proof.
  unfold select_store. destruct store as [s|].
  - destruct (String.eqb_spec s "local") as [->|Hlocal].
    { intros [= <- _]. split; discriminate. }
    destruct (String.eqb_spec s "ipld") as [->|Hipld].
    { intros [= <- _]. done. }
    destruct (String.eqb_spec s "s3") as [->|Hs3]; [|discriminate].
    unfold bind, S3_init. destruct (negb (truthy bucket)); [discriminate|].
    intros [= <- _]. split; discriminate.
  - intros [= <- _]. split; discriminate.
Qed.

(** C2: a manager built with [store="ipld"] has [overwrite_allowed = True]
    whatever [allow_overwrite] was; a manager is bound to the IPLD store
    only when built that way, and on the other stores [overwrite_allowed] is
    the [allow_overwrite] argument. *)
Theorem overwrite_allowed_forced_on_IPLD
    (cls : source_class) (a : init_args) (w : world) :
  (a_store a = Some "ipld" →
   ∃ m w', DatasetManager_init cls a w = (Returned m, w')
           ∧ store m = IPLD ∧ overwrite_allowed m = true)
  ∧ (∀ m w', DatasetManager_init cls a w = (Returned m, w') →
       (is_IPLD (store m) = true ↔ a_store a = Some "ipld")
       ∧ (is_IPLD (store m) = false →
          overwrite_allowed m = a_allow_overwrite a)).
Proof.
  split.
  - intros Hs.
    destruct (init_selected cls a w IPLD) as (m & Hm & Hst & Hov & _).
    { by rewrite Hs. }
    exists m, (add_events w (init_events a)).
    repeat split; [done..|].
    rewrite Hov. apply orb_true_r.
  - intros m w' Hrun.
    destruct (init_returned cls a w m w' Hrun) as (Hsel & Hov & _).
    split; [by eapply select_store_IPLD|].
    intros Hno. rewrite Hov, Hno. apply orb_false_r.
Qed.

Lemma overwrite_allowed_forced_on_IPLD_witness :
  (∃ m w', DatasetManager_init Examples.chirps
             (Examples.init_with (Some "ipld") None false) Examples.w0
           = (Returned m, w')
           ∧ store m = IPLD ∧ overwrite_allowed m = true)
  ∧ (∃ m w', DatasetManager_init Examples.chirps
               (Examples.init_with (Some "local") None false) Examples.w0
             = (Returned m, w')
             ∧ overwrite_allowed m = false).
Proof.
  split.
  - apply (overwrite_allowed_forced_on_IPLD Examples.chirps
             (Examples.init_with (Some "ipld") None false) Examples.w0).
    reflexivity.
  - destruct (init_selected Examples.chirps
                (Examples.init_with (Some "local") None false) Examples.w0
                (Local (MkLocal None None)) eq_refl) as (m & Hrun & Hst & _).
    exists m, (add_events Examples.w0
                 (init_events (Examples.init_with (Some "local") None false))).
    split; [exact Hrun|].
    apply (proj2 (proj2 (overwrite_allowed_forced_on_IPLD Examples.chirps
                           (Examples.init_with (Some "local") None false)
                           Examples.w0) m _ Hrun)).
    by rewrite Hst.
Defined.


(** ** Name resolution *)

(** Induction over a class and all the classes below it. *)
Lemma source_class_rect_nested (P : source_class → Prop) :
  (∀ n k i subs, Forall P subs → P (SourceClass n k i subs)) →
  ∀ cls, P cls.
Proof.
  intros Hstep. fix IH 1. intros [n k i subs]. apply Hstep.
  induction subs as [|sub subs IHsubs]; constructor; [apply IH|exact IHsubs].
Qed.

(** [get_subclasses] yields exactly the transitive subclasses. *)
Lemma get_subclasses_descendant cls c :
  In c (get_subclasses cls) ↔ descendant cls c.
Proof.
  split.
  - revert c. induction cls as [n k i subs IH] using source_class_rect_nested.
    intros c Hin. simpl in Hin. apply in_flat_map in Hin as (sub & Hsub & Hc).
    apply in_app_or in Hc as [Hc | [<- | []]].
    + apply descendant_below with sub; [exact Hsub|].
      rewrite Forall_forall in IH. apply IH; [|exact Hc].
      by apply list_elem_of_In.
    + by apply descendant_child.
  - induction 1 as [[n k i subs] sub Hsub | [n k i subs] sub c Hsub _ IH];
      simpl in *; apply in_flat_map; exists sub; (split; [exact Hsub|]);
      apply in_or_app; [right; by left | by left].
Qed.

Lemma append_String c s r : String c s +:+ r = String c (s +:+ r).
Proof. reflexivity. Qed.

Lemma append_empty r : "" +:+ r = r.
Proof. reflexivity. Qed.

Lemma prefix_app_iff needle hay :
  String.prefix needle hay = true ↔ ∃ rest, hay = needle +:+ rest.
Proof.
  revert hay. induction needle as [|c needle IH]; intros hay.
  - split; [intros _; by exists hay | intros _; by destruct hay].
  - destruct hay as [|d hay]; simpl; [split; [done | intros [? [=]]]|].
    setoid_rewrite append_String.
    destruct (Ascii.ascii_dec c d) as [<-|Hne].
    + rewrite IH. split; intros [rest Hrest]; exists rest; congruence.
    + split; [done | intros [? [=]]; congruence].
Qed.

(** [str_contains] is Python's substring test. *)
Lemma str_contains_correct needle hay :
  str_contains needle hay = true
  ↔ ∃ before after, hay = before +:+ needle +:+ after.
Proof.
  induction hay as [|c hay IH].
  - change (str_contains needle "") with (String.prefix needle "" || false).
    rewrite orb_false_r, prefix_app_iff. split.
    + intros [rest Hrest]. by exists "", rest.
    + intros ([|? before] & after & Heq); [by exists after | discriminate Heq].
  - change (str_contains needle (String c hay))
      with (String.prefix needle (String c hay) || str_contains needle hay).
    rewrite orb_true_iff, IH, prefix_app_iff. split.
    + intros [[rest Hrest] | (before & after & Heq)].
      * by exists "", rest.
      * exists (String c before), after. by rewrite append_String, Heq.
    + intros ([|d before] & after & Heq).
      * left. by exists after.
      * right. rewrite append_String in Heq. injection Heq as _ Heq.
        by exists before, after.
Qed.

Lemma scan_sources_first name before c after :
  lookup_key name c = name →
  Forall (λ s, lookup_key name s ≠ name) before →
  scan_sources name (before ++ c :: after) = Some c.
Proof.
  intros Hc Hbefore. unfold lookup_key in *.
  induction Hbefore as [|s before Hs _ IH]; simpl.
  - destruct (str_contains "gfs" name); by rewrite Hc, String.eqb_refl.
  - destruct (str_contains "gfs" name);
      by apply String.eqb_neq in Hs as ->.
Qed.

Lemma scan_sources_none name sources :
  Forall (λ s, lookup_key name s ≠ name) sources →
  scan_sources name sources = None.
Proof.
  unfold lookup_key. induction 1 as [|s sources Hs _ IH]; simpl; [done|].
  destruct (str_contains "gfs" name); by apply String.eqb_neq in Hs as ->.
Qed.

(** Every list of sources either has a first match or no match at all. *)
Lemma scan_sources_split name sources :
  (∃ before c after, sources = (before ++ c :: after)%list
                     ∧ lookup_key name c = name
                     ∧ Forall (λ s, lookup_key name s ≠ name) before)
  ∨ Forall (λ s, lookup_key name s ≠ name) sources.
Proof.
  induction sources as [|s sources IH]; [by right|].
  destruct (String.eqb_spec (lookup_key name s) name) as [Heq|Hne].
  - left. by exists [], s, sources.
  - destruct IH as [(before & c & after & -> & Hc & Hbefore) | Hnone].
    + left. exists (s :: before), c, after. by repeat split; [|constructor].
    + right. by constructor.
Qed.

(** C4: [get_dataset_manager_from_name] goes through the transitive
    subclasses in the order of [get_subclasses]; a name containing "gfs" is
    compared with each class's [json_key()], any other name with its
    [name()].  The first class that matches is returned and nothing is
    printed; when none matches the call prints the failure message and
    returns [None].  It never raises. *)
Theorem get_dataset_manager_from_name_first_match
    (self_cls : source_class) (name : string) (w : world) :
  let key := if str_contains "gfs" name then cls_json_key else cls_name in
  (str_contains "gfs" name = true
   ↔ ∃ before after, name = before +:+ "gfs" +:+ after)
  ∧ (∀ c, In c (get_subclasses self_cls) ↔ descendant self_cls c)
  ∧ (∀ before c after,
       get_subclasses self_cls = (before ++ c :: after)%list →
       key c = name → Forall (λ s, key s ≠ name) before →
       get_dataset_manager_from_name self_cls name w = (Returned (Some c), w))
  ∧ (Forall (λ s, key s ≠ name) (get_subclasses self_cls) →
     get_dataset_manager_from_name self_cls name w
     = (Returned None, add_events w [resolution_failure name]))
  ∧ ∃ r w', get_dataset_manager_from_name self_cls name w = (Returned r, w').
Proof.
  intros key. fold (lookup_key name) in key. subst key.
  split; [apply str_contains_correct|].
  split; [intros c; apply get_subclasses_descendant|].
  assert (∀ before c after,
            get_subclasses self_cls = (before ++ c :: after)%list →
            lookup_key name c = name →
            Forall (λ s, lookup_key name s ≠ name) before →
            get_dataset_manager_from_name self_cls name w
            = (Returned (Some c), w)) as Hfound.
  { intros before c after Hsubs Hc Hbefore.
    unfold get_dataset_manager_from_name.
    by rewrite Hsubs, (scan_sources_first _ _ _ _ Hc Hbefore). }
  assert (Forall (λ s, lookup_key name s ≠ name) (get_subclasses self_cls) →
          get_dataset_manager_from_name self_cls name w
          = (Returned None, add_events w [resolution_failure name])) as Hnone.
  { intros Hall. unfold get_dataset_manager_from_name.
    by rewrite (scan_sources_none _ _ Hall). }
  split; [exact Hfound|]. split; [exact Hnone|].
  destruct (scan_sources_split name (get_subclasses self_cls))
    as [(before & c & after & Hsubs & Hc & Hbefore) | Hall].
  - exists (Some c), w. by eapply Hfound.
  - exists None, (add_events w [resolution_failure name]). by apply Hnone.
Qed.

Lemma get_dataset_manager_from_name_first_match_witness :
  get_dataset_manager_from_name Examples.root "gfs_temperature-hourly" Examples.w0
  = (Returned (Some Examples.gfs), Examples.w0)
  ∧ get_dataset_manager_from_name Examples.root "chirps" Examples.w0
    = (Returned (Some Examples.chirps), Examples.w0)
  ∧ get_dataset_manager_from_name Examples.root "era5" Examples.w0
    = (Returned None,
       add_events Examples.w0
         [EvPrint "failed to set manager from name era5, could not find corresponding class"]).
Proof.
  split; [|split].
  - apply (proj1 (proj2 (proj2 (get_dataset_manager_from_name_first_match
                                  Examples.root "gfs_temperature-hourly"
                                  Examples.w0)))
             [Examples.chirps_final_05; Examples.chirps] Examples.gfs []).
    + reflexivity.
    + reflexivity.
    + repeat constructor; discriminate.
  - apply (proj1 (proj2 (proj2 (get_dataset_manager_from_name_first_match
                                  Examples.root "chirps" Examples.w0)))
             [Examples.chirps_final_05] Examples.chirps [Examples.gfs]).
    + reflexivity.
    + reflexivity.
    + repeat constructor; discriminate.
  - apply (proj1 (proj2 (proj2 (proj2
             (get_dataset_manager_from_name_first_match
                Examples.root "era5" Examples.w0))))).
    repeat constructor; discriminate.
Defined.

(** ** The IPLD store *)

Lemma truthy_resolvable w :
  truthy (w_latest_hash w) = false ↔ ¬ hash_resolvable w.
Proof.
  unfold hash_resolvable. split.
  - intros Hf (h & Hh & Hne). rewrite Hh in Hf. simpl in Hf.
    apply String.eqb_neq in Hne. by rewrite Hne in Hf.
  - intros Hno. destruct (truthy (w_latest_hash w)) eqn:Ht; [|done].
    destruct Hno. by apply truthy_true.
Qed.

Lemma IPLD_mapper_unrooted dm w :
  ∃ evs, IPLD_mapper dm false w
         = (Returned (unrooted_mapper dm w),
            add_events (with_next w (S (w_next w))) evs)
         ∧ Forall (λ e, is_latest_hash e = false) evs.
Proof.
  unfold IPLD_mapper, unrooted_mapper, get_ipfs_mapper, bind.
  destruct (requested_ipfs_chunker dm) as [c|]; simpl;
    [destruct (negb (String.eqb c ""))|]; simpl;
    eexists; (split; [norm_world; reflexivity|]); by repeat constructor.
Qed.

Lemma IPLD_mapper_rooted dm w h :
  w_latest_hash w = Some h → h ≠ "" →
  ∃ m w', IPLD_mapper dm true w = (Returned m, w')
          ∧ mapper_root m = Some h
          ∧ mapper_id m = w_next w.
Proof.
  intros Hh Hne. apply String.eqb_neq in Hne.
  unfold IPLD_mapper, get_ipfs_mapper, latest_hash, bind.
  destruct (requested_ipfs_chunker dm) as [c|]; simpl;
    [destruct (negb (String.eqb c ""))|]; simpl;
    rewrite Hh; simpl; rewrite Hne; simpl; by eexists _, _.
Qed.

(** C8: on the IPLD store [has_existing] asks for the latest hash and is
    [False] exactly when none can be resolved; [mapper(set_root=False)]
    returns an unrooted mapper without asking for the latest hash; and
    [mapper(set_root=True)], when a latest hash exists, returns a mapper
    rooted at it. *)
Theorem IPLD_has_existing_and_mapper_root (dm : DatasetManager) (w : world) :
  (∃ b, IPLD_has_existing dm w = (Returned b, add_events w [EvLatestHash])
        ∧ (b = false ↔ ¬ hash_resolvable w))
  ∧ (∃ m w', IPLD_mapper dm false w = (Returned m, w')
             ∧ mapper_root m = None
             ∧ Forall (λ e, is_latest_hash e = false)
                      (new_events (IPLD_mapper dm false) w))
  ∧ (∀ h, w_latest_hash w = Some h → h ≠ "" →
       ∃ m w', IPLD_mapper dm true w = (Returned m, w')
               ∧ mapper_root m = Some h).
Proof.
  split; [|split].
  - exists (truthy (w_latest_hash w)). split; [reflexivity|].
    apply truthy_resolvable.
  - destruct (IPLD_mapper_unrooted dm w) as (evs & Hrun & Hevs).
    eexists _, _. split; [exact Hrun|]. split; [reflexivity|].
    unfold new_events. rewrite Hrun. simpl. by rewrite drop_app_length.
  - intros h Hh Hne.
    destruct (IPLD_mapper_rooted dm w h Hh Hne) as (m & w' & Hrun & Hroot & _).
    by exists m, w'.
Qed.

Lemma IPLD_has_existing_and_mapper_root_witness :
  ∃ m w', IPLD_mapper (Examples.manager IPLD) true Examples.w_published
          = (Returned m, w')
          ∧ mapper_root m = Some "bafyreib4".
Proof.
  apply (proj2 (proj2 (IPLD_has_existing_and_mapper_root
                         (Examples.manager IPLD) Examples.w_published))
           "bafyreib4"); [reflexivity|discriminate].
Defined.

(** ** The cached mapper of the S3 and Local stores *)

Lemma mapper_cached_returned dm kw st w m :
  default false (kw_refresh kw) = false →
  cached_mapper st = Some m →
  mapper dm kw st w = (Returned (m, st), w).
Proof.
  intros Hkw Hm. destruct st as [s| |s]; simpl in Hm; [|discriminate|].
  - unfold mapper, S3_mapper, bind. rewrite Hkw, Hm. simpl. by rewrite Hm.
  - unfold mapper, Local_mapper, bind. rewrite Hkw, Hm. simpl. by rewrite Hm.
Qed.

Lemma mapper_created dm kw st w :
  is_IPLD st = false →
  default false (kw_refresh kw) = true ∨ cached_mapper st = None →
  ∃ m st' w', mapper dm kw st w = (Returned (m, st'), w')
              ∧ cached_mapper st' = Some m
              ∧ w_next w ≤ mapper_id m.
Proof.
  intros Hst Hnew.
  assert (default false (kw_refresh kw) || negb (hasattr (cached_mapper st))
          = true) as Hcond.
  { destruct Hnew as [-> | ->]; [done | apply orb_true_r]. }
  destruct st as [[bucket fs mp]| |[fs mp]]; simpl in Hst, Hcond;
    [|discriminate|].
  - unfold mapper, S3_mapper, S3_fs, catch_KeyError, environ_get, bind.
    simpl. rewrite Hcond. simpl.
    destruct fs as [fs|]; simpl.
    { eexists _, _, _. split; [reflexivity|]. split; [done|simpl; lia]. }
    destruct (w_environ w !! "AWS_ACCESS_KEY_ID") as [key|]; simpl;
      [destruct (w_environ w !! "AWS_SECRET_ACCESS_KEY") as [secret|]; simpl|];
      eexists _, _, _; (split; [reflexivity|]); (split; [done|simpl; lia]).
  - unfold mapper, Local_mapper, Local_fs, bind.
    simpl. rewrite Hcond. simpl.
    destruct fs as [fs|]; simpl;
      eexists _, _, _; (split; [reflexivity|]); (split; [done|simpl; lia]).
Qed.

(** C7, as the code has it.  On the S3 and Local stores the mapper is
    created at the first request and kept: asking again without [refresh]
    returns the same object and changes nothing, and [refresh=True] puts a
    newly created mapper in its place.  The IPLD store keeps no mapper: each
    call, whatever its keywords, returns a newly created one. *)
Theorem mapper_cached_except_on_IPLD
    (dm : DatasetManager) (st : StoreInterface) (w : world) :
  (is_IPLD st = false →
   (cached_mapper st = None →
    ∃ m st' w', mapper dm no_kwargs st w = (Returned (m, st'), w')
                ∧ cached_mapper st' = Some m
                ∧ mapper dm no_kwargs st' w' = (Returned (m, st'), w'))
   ∧ (∀ m, cached_mapper st = Some m →
        mapper dm no_kwargs st w = (Returned (m, st), w))
   ∧ (∃ m' st' w', mapper dm refresh_kwargs st w = (Returned (m', st'), w')
                   ∧ cached_mapper st' = Some m'
                   ∧ ∀ m, cached_mapper st = Some m →
                          mapper_id m < w_next w → m' ≠ m))
  ∧ (is_IPLD st = true →
     ∀ kw, ∃ m w', mapper dm kw st w = (Returned (m, st), w')
                   ∧ mapper_id m = w_next w
                   ∧ w_next w' = S (w_next w)
                   ∧ cached_mapper st = None).
Proof.
  split.
  - intros Hst. split; [|split].
    + intros Hnone.
      destruct (mapper_created dm no_kwargs st w Hst (or_intror Hnone))
        as (m & st' & w' & Hrun & Hcached & _).
      exists m, st', w'. split; [exact Hrun|]. split; [exact Hcached|].
      by apply mapper_cached_returned.
    + intros m Hm. by apply mapper_cached_returned.
    + destruct (mapper_created dm refresh_kwargs st w Hst (or_introl eq_refl))
        as (m' & st' & w' & Hrun & Hcached & Hid).
      exists m', st', w'. split; [exact Hrun|]. split; [exact Hcached|].
      intros m _ Hlt ->. lia.
  - intros Hst kw. destruct st as [s| |s]; try discriminate Hst.
    unfold mapper, bind.
    destruct (default true (kw_set_root kw)).
    + unfold IPLD_mapper, get_ipfs_mapper, latest_hash, bind.
      destruct (truthy (requested_ipfs_chunker dm)); simpl;
        destruct (requested_ipfs_chunker dm); simpl;
        destruct (truthy (w_latest_hash w)); simpl; by eexists _, _.
    + destruct (IPLD_mapper_unrooted dm w) as (evs & -> & _).
      by eexists _, _.
Qed.

Lemma mapper_cached_except_on_IPLD_witness :
  (∃ m st' w', mapper (Examples.manager (Local (MkLocal None None))) no_kwargs
                 (Local (MkLocal None None)) Examples.w0
               = (Returned (m, st'), w')
               ∧ cached_mapper st' = Some m
               ∧ mapper (Examples.manager (Local (MkLocal None None)))
                   no_kwargs st' w'
                 = (Returned (m, st'), w'))
  ∧ (∃ m w', mapper (Examples.manager IPLD) no_kwargs IPLD Examples.w0
             = (Returned (m, IPLD), w')
             ∧ mapper_id m = 1
             ∧ w_next w' = 2
             ∧ cached_mapper IPLD = None).
Proof.
  split.
  - apply (proj1 (mapper_cached_except_on_IPLD
                    (Examples.manager (Local (MkLocal None None)))
                    (Local (MkLocal None None)) Examples.w0));
      reflexivity.
  - apply (proj2 (mapper_cached_except_on_IPLD
                    (Examples.manager IPLD) IPLD Examples.w0)).
    reflexivity.
Defined.

(** C7 as stated fails on the IPLD store: a second call without [refresh]
    does not return the mapper the first call returned. *)
Lemma IPLD_mapper_not_cached :
  ¬ (∀ dm st w m1 st1 w1 m2 st2 w2,
       mapper dm no_kwargs st w = (Returned (m1, st1), w1) →
       mapper dm no_kwargs st1 w1 = (Returned (m2, st2), w2) →
       m2 = m1).
Proof.
  intros Hall.
  specialize (Hall (Examples.manager IPLD) IPLD Examples.w0
                (IPLDStore 1 "size-262144" None) IPLD
                (snd (mapper (Examples.manager IPLD) no_kwargs IPLD Examples.w0))
                (IPLDStore 2 "size-262144" None) IPLD
                (snd (mapper (Examples.manager IPLD) no_kwargs IPLD
                        (snd (mapper (Examples.manager IPLD) no_kwargs IPLD
                                Examples.w0))))
                eq_refl eq_refl).
  discriminate Hall.
Qed.

(** ** [populate_metadata] *)

Lemma with_metadata_static dm md :
  static_metadata (with_metadata dm md) = static_metadata dm.
Proof. reflexivity. Qed.

(** For a source whose [static_metadata] is a dictionary, [self.metadata]
    alternates between that dictionary and [None] from one call to the
    next, so two calls never leave what one call leaves.  The static
    metadata itself stays as it was. *)
Lemma populate_metadata_alternates dm w a sm :
  static_metadata dm = PyDict a →
  w_heap w !! a = Some sm →
  view_metadata w dm ≠ Dangling →
  ∃ dm1 w1 dm2 w2,
    populate_metadata dm w = (Returned dm1, w1)
    ∧ populate_metadata dm1 w1 = (Returned dm2, w2)
    ∧ w_heap w2 !! a = Some sm
    ∧ ((view_metadata w1 dm1 = IsDict sm ∧ view_metadata w2 dm2 = IsNone)
       ∨ (view_metadata w1 dm1 = IsNone ∧ view_metadata w2 dm2 = IsDict sm)).
Proof.
  intros Hstatic Hsm Hview. unfold static_metadata in Hstatic.
  assert (∀ w', w_heap w' !! a = Some sm →
            populate_metadata (with_metadata dm (Some (PyDict a))) w'
            = (Returned (with_metadata dm (Some PyNone)),
               World (w_trace w') (w_next w') (<[a := sm ∪ sm]> (w_heap w'))
                     (w_environ w') (w_cpu_count w') (w_latest_hash w')
                     (w_default_chunker w') (w_existing w'))) as Hsecond.
  { intros w' Hw'.
    unfold populate_metadata, dict_update, static_metadata, bind, gets. simpl.
    by rewrite Hstatic, Hw'. }
  unfold view_metadata in Hview.
  destruct (metadata dm) as [[|d]|] eqn:Hmd.
  - (* metadata is None *)
    eexists _, w, _, _. split.
    { unfold populate_metadata, static_metadata. rewrite Hmd, Hstatic.
      reflexivity. }
    split; [by apply Hsecond|]. simpl.
    rewrite lookup_insert_eq, (idemp_L (∪)).
    split; [done|]. left. unfold view_metadata; simpl. by rewrite Hsm.
  - (* metadata is a dictionary *)
    destruct (w_heap w !! d) as [target|] eqn:Hd; [|done].
    eexists _, _, _, _. split.
    { unfold populate_metadata, dict_update, static_metadata, bind, gets.
      rewrite Hmd. simpl. rewrite Hd, Hstatic, Hsm. reflexivity. }
    split; [reflexivity|]. simpl.
    assert ((<[d := sm ∪ target]> (w_heap w)) !! a = Some sm) as Ha.
    { destruct (decide (d = a)) as [->|Hne].
      - rewrite lookup_insert_eq. rewrite Hsm in Hd. injection Hd as <-.
        by rewrite (idemp_L (∪)).
      - by rewrite lookup_insert_ne. }
    split; [exact Ha|]. right. unfold view_metadata, static_metadata; simpl.
    by rewrite Hstatic, Ha.
  - (* no metadata attribute yet *)
    eexists _, w, _, _. split.
    { unfold populate_metadata, static_metadata. rewrite Hmd, Hstatic.
      reflexivity. }
    split; [by apply Hsecond|]. simpl.
    rewrite lookup_insert_eq, (idemp_L (∪)).
    split; [done|]. left. unfold view_metadata; simpl. by rewrite Hsm.
Qed.

(** C1 does not hold of the code: for a freshly built manager whose static
    metadata is [{"title": "CHIRPS"}], one call leaves that dictionary in
    [self.metadata], and a second call, with the static metadata as it was,
    leaves [None] there, the return value of [dict.update]. *)
Theorem populate_metadata_second_call_leaves_None :
  ∃ dm1 w1 dm2 w2,
    populate_metadata (Examples.manager IPLD) Examples.w0 = (Returned dm1, w1)
    ∧ view_metadata w1 dm1 = IsDict {[ "title" := "CHIRPS" ]}
    ∧ populate_metadata dm1 w1 = (Returned dm2, w2)
    ∧ view_metadata w2 dm2 = IsNone
    ∧ w_heap w2 !! 0 = Some {[ "title" := "CHIRPS" ]}.
Proof.
  eexists _, _, _, _. split; [reflexivity|].
  split; [reflexivity|]. split; [reflexivity|].
  split; [reflexivity|]. vm_compute. reflexivity.
Qed.

(** ** Traces of composed computations *)

Section Traces.
Context (P : list event → Prop).
Hypothesis P_nil : P [].
Hypothesis P_app : ∀ l k, P l → P k → P (l ++ k).

Lemma traces_ret {A} (a : A) : traces P (ret a).
Proof. intros w. exists []. by rewrite (right_id_L [] (++)). Qed.

Lemma traces_raise {A} e : traces P (@raise A e).
Proof. intros w. exists []. by rewrite (right_id_L [] (++)). Qed.

Lemma traces_lift {A} (o : outcome A) : traces P (lift o).
Proof. intros w. exists []. by rewrite (right_id_L [] (++)). Qed.

Lemma traces_gets {A} (f : world → A) : traces P (gets f).
Proof. intros w. exists []. by rewrite (right_id_L [] (++)). Qed.

Lemma traces_emit e : P [e] → traces P (emit e).
Proof. intros He w. by exists [e]. Qed.

Lemma traces_bind {A B} (c : M A) (k : A → M B) :
  traces P c → (∀ a, traces P (k a)) → traces P (bind c k).
Proof.
  intros Hc Hk w. unfold bind.
  destruct (Hc w) as (l & Hl & HPl).
  destruct (c w) as [[a|e] w1]; simpl in Hl.
  - destruct (Hk a w1) as (l' & Hl' & HPl').
    exists (l ++ l'). split; [|by apply P_app].
    by rewrite Hl', Hl, (assoc_L (++)).
  - by exists l.
Qed.

Lemma traces_when b (c : M unit) : traces P c → traces P (when b c).
Proof. intros Hc. destruct b; [exact Hc|apply traces_ret]. Qed.

End Traces.

Lemma traces_new_events P {A} (c : M A) w :
  traces P c →
  w_trace (snd (c w)) = w_trace w ++ new_events c w ∧ P (new_events c w).
Proof.
  intros Hc. destruct (Hc w) as (evs & Hevs & HP).
  unfold new_events. by rewrite Hevs, drop_app_length.
Qed.

(** The events of [c ;; k]: those of [c], then those of [k] if [c]
    returned. *)
Lemma new_events_bind {A B} (c : M A) (k : A → M B) w :
  traces (λ _, True) c → (∀ a, traces (λ _, True) (k a)) →
  new_events (bind c k) w
  = new_events c w
    ++ match fst (c w) with
       | Returned a => new_events (k a) (snd (c w))
       | Raised _ => []
       end.
Proof.
  intros Hc Hk.
  destruct (traces_new_events _ c w Hc) as [Hcw _].
  unfold new_events at 1. unfold bind.
  destruct (c w) as [[a|e] w1] eqn:Hrun; simpl in *.
  - destruct (traces_new_events _ (k a) w1 (Hk a)) as [Hkw _].
    by rewrite Hkw, Hcw, <- (assoc_L (++)), drop_app_length.
  - by rewrite Hcw, drop_app_length, (right_id_L [] (++)).
Qed.

Lemma no_phase_app l k : no_phase l → no_phase k → no_phase (l ++ k).
Proof.
  unfold no_phase, phases_of. intros Hl Hk. by rewrite omap_app, Hl, Hk.
Qed.

Lemma traces_weaken P {A} (c : M A) : traces P c → traces (λ _, True) c.
Proof.
  intros Hc w. destruct (Hc w) as (evs & Hevs & _). by exists evs.
Qed.

(** Discharge a [traces] goal by following the structure of the code. *)
Ltac traces_side := first [exact no_phase_app | reflexivity | intros; exact I].

Ltac traces_step :=
  lazymatch goal with
  | |- traces _ (bind _ _) => apply traces_bind; [traces_side| |intros ?]
  | |- traces _ (when _ _) => apply traces_when; [traces_side|]
  | |- traces _ (emit _) => apply traces_emit; traces_side
  | |- traces _ (ret _) => apply traces_ret; traces_side
  | |- traces _ (raise _) => apply traces_raise; traces_side
  | |- traces _ (lift _) => apply traces_lift; traces_side
  | |- traces _ (gets _) => apply traces_gets; traces_side
  | |- traces _ (if ?b then _ else _) => destruct b
  | |- traces _ (match ?o with Some _ => _ | None => _ end) => destruct o
  end.

Ltac solve_traces := repeat traces_step.

Lemma S3_init_quiet bucket : traces no_phase (S3_init bucket).
Proof. unfold S3_init. solve_traces. Qed.

Lemma select_store_quiet store bucket :
  traces no_phase (select_store store bucket).
Proof.
  unfold select_store. destruct store as [s|]; [|solve_traces].
  repeat match goal with
         | |- traces _ (if ?b then _ else _) => destruct b
         end; [solve_traces..| |solve_traces].
  apply traces_bind;
    [apply no_phase_app|apply S3_init_quiet|intros ?; solve_traces].
Qed.

Lemma DatasetManager_init_quiet cls a :
  traces no_phase (DatasetManager_init cls a).
Proof.
  unfold DatasetManager_init.
  apply traces_bind; [apply no_phase_app|solve_traces|intros _].
  apply traces_bind; [apply no_phase_app|apply select_store_quiet|intros st].
  solve_traces.
Qed.

Lemma get_dataset_manager_from_name_quiet self_cls name :
  traces no_phase (get_dataset_manager_from_name self_cls name).
Proof. unfold get_dataset_manager_from_name. solve_traces. Qed.

Lemma instantiate_quiet dataset_class a :
  traces no_phase (instantiate dataset_class a).
Proof.
  unfold instantiate. destruct dataset_class as [cls|]; [|solve_traces].
  apply DatasetManager_init_quiet.
Qed.

Lemma run_phases_traces manager a : traces (λ _, True) (run_phases manager a).
Proof. unfold run_phases, call_phase, info. solve_traces. Qed.

(** ** [run_etl] *)

Lemma run_etl_split self_cls a w :
  run_etl self_cls a w
  = bind (make_manager self_cls a) (λ manager, run_phases manager a) w.
Proof.
  unfold run_etl, make_manager, bind.
  destruct (get_dataset_manager_from_name self_cls (r_dataset_name a) w)
    as [[dataset_class|e] w1]; [|done].
  by destruct (instantiate dataset_class a w1) as [[manager|e] w2].
Qed.

Lemma make_manager_quiet self_cls a : traces no_phase (make_manager self_cls a).
Proof.
  unfold make_manager.
  apply traces_bind;
    [apply no_phase_app|apply get_dataset_manager_from_name_quiet|intros dc].
  apply traces_bind; [apply no_phase_app|apply instantiate_quiet|intros m].
  solve_traces.
Qed.

(** Once the manager exists, [run_etl] goes on as [run_phases]; if building
    it raises, so does [run_etl] and no lifecycle method has been invoked. *)
Lemma run_etl_phases self_cls a w :
  match make_manager self_cls a w with
  | (Returned manager, w1) =>
      run_etl self_cls a w = run_phases manager a w1
      ∧ phases_of (new_events (run_etl self_cls a) w)
        = phases_of (new_events (run_phases manager a) w1)
  | (Raised e, w1) =>
      run_etl self_cls a w = (Raised e, w1)
      ∧ phases_of (new_events (run_etl self_cls a) w) = []
  end.
Proof.
  pose proof (new_events_bind (make_manager self_cls a)
                (λ manager, run_phases manager a) w
                (traces_weaken _ _ (make_manager_quiet self_cls a))
                (λ manager, run_phases_traces manager a)) as Hev.
  destruct (traces_new_events _ _ w (make_manager_quiet self_cls a))
    as [_ Hquiet].
  unfold new_events in *. rewrite run_etl_split. unfold bind in *.
  destruct (make_manager self_cls a w) as [[manager|e] w1]; simpl in *.
  - split; [done|]. rewrite Hev. unfold phases_of. rewrite omap_app.
    unfold no_phase, phases_of in Hquiet. by rewrite Hquiet.
  - split; [done|]. rewrite Hev, (right_id_L [] (++)). exact Hquiet.
Qed.

Lemma runs_ret {A} (a : A) : runs (ret a) (Returned a) [].
Proof. intros w. by rewrite add_events_nil. Qed.

Lemma runs_lift {A} (o : outcome A) : runs (lift o) o [].
Proof. intros w. by rewrite add_events_nil. Qed.

Lemma runs_emit e : runs (emit e) (Returned tt) [e].
Proof. intros w. reflexivity. Qed.

Lemma runs_bind {A B} (c : M A) (k : A → M B) r1 l r l' :
  runs c r1 l →
  match r1 with
  | Returned a => runs (k a) r l'
  | Raised e => r = Raised e ∧ l' = []
  end →
  runs (bind c k) r (l ++ l').
Proof.
  intros Hc Hk w. unfold bind. rewrite (Hc w).
  destruct r1 as [a|e].
  - by rewrite (Hk (add_events w l)), add_events_app.
  - destruct Hk as [-> ->]. by rewrite (right_id_L [] (++)).
Qed.

(** Evaluate a computation whose branches are all decided, one statement at
    a time. *)
Ltac eval_runs :=
  lazymatch goal with
  | |- runs (bind _ _) _ _ =>
      eapply runs_bind; [eval_runs | cbv beta iota; eval_runs]
  | |- runs (ret _) _ _ => apply runs_ret
  | |- runs (lift _) _ _ => apply runs_lift
  | |- runs (emit _) _ _ => apply runs_emit
  | |- _ = Raised _ ∧ _ = [] => split; reflexivity
  | |- runs _ _ _ => progress cbv beta iota delta [fst snd]; eval_runs
  end.

(** Replace [run_phases manager a w] in the goal by its result, once the
    flags it tests and the outcomes of the methods it calls are known. *)
Ltac eval_run_phases Himpl w :=
  match goal with
  | |- context [run_phases ?m ?a] =>
      eassert (runs (run_phases m a) _ _) as Hruns;
      [ unfold run_phases, call_phase, info, when; rewrite Himpl;
        cbv beta iota zeta
            delta [r_only_parse r_only_update_input r_only_prepare_input
                   r_only_metadata src_update_local_input
                   src_only_update_metadata src_prepare_input_files
                   src_create_zarr_json src_parse];
        eval_runs
      | unfold new_events; rewrite ?(Hruns w);
        cbn [fst snd add_events w_trace];
        rewrite ?drop_app_length; clear Hruns;
        repeat match goal with
               | |- context [phases_of ?evs] =>
                   let ps := eval lazy in (phases_of evs) in
                   change (phases_of evs) with ps
               end ]
  end.

(** Membership of a phase in an explicit list of phases. *)
Ltac solve_phases :=
  intros; rewrite ?elem_of_cons, ?elem_of_nil in *;
  intuition (done || discriminate).

Lemma run_phases_only_metadata manager a w :
  r_only_metadata a = true →
  let ps := phases_of (new_events (run_phases manager a) w) in
  (∃ rest, ps = OnlyUpdateMetadata :: rest)
  ∧ (UpdateLocalInput ∉ ps)
  ∧ ((PrepareInputFiles ∈ ps ∨ CreateZarrJson ∈ ps) →
     r_only_prepare_input a = true)
  ∧ (Parse ∈ ps → r_only_parse a = true)
  ∧ (r_only_parse a = false → r_only_prepare_input a = false →
     ps = [OnlyUpdateMetadata]
     ∧ (src_only_update_metadata (cls_impl (dm_class manager)) = Returned tt →
        fst (run_phases manager a w) = Returned tt)).
Proof.
  destruct a as [dn st bk rb only_parse only_update only_prepare only_md co cl].
  simpl. intros ->.
  destruct (cls_impl (dm_class manager))
    as [? ? ? ? ? update metadata_step prepare create parse] eqn:Himpl.
  destruct only_parse, only_prepare, metadata_step as [[]|],
    prepare as [[]|], create as [[]|], parse as [[|]|];
    eval_run_phases Himpl w;
    repeat split; first [done | by eexists | solve_phases].
Qed.

Lemma run_phases_only_update_input manager a w :
  r_only_update_input a = true →
  r_only_parse a = false →
  r_only_metadata a = false →
  phases_of (new_events (run_phases manager a) w) = [UpdateLocalInput]
  ∧ ∀ b, src_update_local_input (cls_impl (dm_class manager)) = Returned b →
         run_phases manager a w
         = (Returned tt, add_events w only_update_input_events).
Proof.
  destruct a as [dn st bk rb only_parse only_update only_prepare only_md co cl].
  simpl. intros -> -> ->.
  destruct (cls_impl (dm_class manager))
    as [? ? ? ? ? update metadata_step prepare create parse] eqn:Himpl.
  destruct update as [[|]|];
    eval_run_phases Himpl w; (split; [done|]); intros b [=]; done.
Qed.

(** C5, as the code has it.  With [only_metadata=True], [update_local_input]
    is never invoked; [prepare_input_files] (and [create_zarr_json]) can only
    be invoked when [only_prepare_input] is set as well, and [parse] only
    when [only_parse] is set as well.  Once the manager exists the first
    lifecycle method invoked is [only_update_metadata]; with neither of the
    two other flags it is the only one, and the run ends normally when it
    returns. *)
Theorem run_etl_only_metadata
    (self_cls : source_class) (a : etl_args) (w : world) :
  r_only_metadata a = true →
  let ps := phases_of (new_events (run_etl self_cls a) w) in
  (UpdateLocalInput ∉ ps)
  ∧ ((PrepareInputFiles ∈ ps ∨ CreateZarrJson ∈ ps) →
     r_only_prepare_input a = true)
  ∧ (Parse ∈ ps → r_only_parse a = true)
  ∧ (∀ manager w1,
       make_manager self_cls a w = (Returned manager, w1) →
       (∃ rest, ps = OnlyUpdateMetadata :: rest)
       ∧ (r_only_parse a = false → r_only_prepare_input a = false →
          ps = [OnlyUpdateMetadata]
          ∧ (src_only_update_metadata (cls_impl (dm_class manager))
             = Returned tt →
             fst (run_etl self_cls a w) = Returned tt))).
Proof.
  intros Hmd ps. subst ps.
  pose proof (run_etl_phases self_cls a w) as Hsplit.
  destruct (make_manager self_cls a w) as [[manager|e] w1].
  - destruct Hsplit as [Hrun ->]. rewrite Hrun.
    destruct (run_phases_only_metadata manager a w1 Hmd)
      as (Hfirst & Hupdate & Hprepare & Hparse & Halone).
    split; [done|]. split; [done|]. split; [done|].
    intros manager' w1' [= <- <-]. split; [done|]. exact Halone.
  - destruct Hsplit as [_ ->].
    split; [solve_phases|]. split; [solve_phases|]. split; [solve_phases|].
    intros ? ? [=].
Qed.

Lemma run_etl_only_metadata_witness :
  phases_of (new_events (run_etl Examples.root
                           (Examples.flags false false false true))
                        Examples.w0)
  = [OnlyUpdateMetadata]
  ∧ fst (run_etl Examples.root (Examples.flags false false false true)
           Examples.w0) = Returned tt.
Proof.
  destruct (proj2 (proj2 (proj2
              (run_etl_only_metadata Examples.root
                 (Examples.flags false false false true) Examples.w0
                 eq_refl)))
              (fst (Examples.manager (Local (MkLocal None None)),
                    Examples.w0))
              (snd (make_manager Examples.root
                      (Examples.flags false false false true) Examples.w0))
              eq_refl) as [_ Halone].
  destruct (Halone eq_refl eq_refl) as [Hps Hret].
  split; [exact Hps | exact (Hret eq_refl)].
Defined.

(** C5 as stated fails: with [only_metadata] and [only_parse] both set,
    [parse] is invoked. *)
Lemma only_metadata_with_only_parse_parses :
  ¬ (∀ self_cls a w,
       r_only_metadata a = true →
       let ps := phases_of (new_events (run_etl self_cls a) w) in
       (UpdateLocalInput ∉ ps) ∧ (PrepareInputFiles ∉ ps) ∧ (Parse ∉ ps)).
Proof.
  intros Hall.
  destruct (Hall Examples.root (Examples.flags true false false true)
              Examples.w0 eq_refl) as (_ & _ & Hparse).
  apply Hparse.
  change (Parse ∈ [OnlyUpdateMetadata; Parse]).
  solve_phases.
Qed.

(** C6, as the code has it.  With [only_update_input=True] and neither
    [only_parse] nor [only_metadata], the only lifecycle method [run_etl] can
    invoke is [update_local_input]; once the manager exists it is invoked,
    and whichever boolean it returns the run logs that it ends there and
    returns. *)
Theorem run_etl_only_update_input
    (self_cls : source_class) (a : etl_args) (w : world) :
  r_only_update_input a = true →
  r_only_parse a = false →
  r_only_metadata a = false →
  let ps := phases_of (new_events (run_etl self_cls a) w) in
  (ps = [] ∨ ps = [UpdateLocalInput])
  ∧ (∀ manager w1,
       make_manager self_cls a w = (Returned manager, w1) →
       ps = [UpdateLocalInput]
       ∧ ∀ b, src_update_local_input (cls_impl (dm_class manager))
              = Returned b →
              run_etl self_cls a w
              = (Returned tt, add_events w1 only_update_input_events)).
Proof.
  intros Hupdate Hparse Hmd ps. subst ps.
  pose proof (run_etl_phases self_cls a w) as Hsplit.
  destruct (make_manager self_cls a w) as [[manager|e] w1].
  - destruct Hsplit as [Hrun ->]. rewrite Hrun.
    destruct (run_phases_only_update_input manager a w1 Hupdate Hparse Hmd)
      as [Hps Hret].
    split; [by right|]. by intros manager' w1' [= <- <-].
  - destruct Hsplit as [_ ->]. split; [by left|]. intros ? ? [=].
Qed.

Lemma run_etl_only_update_input_witness :
  run_etl Examples.root (Examples.flags false true false false) Examples.w0
  = (Returned tt,
     add_events
       (snd (make_manager Examples.root
               (Examples.flags false true false false) Examples.w0))
       only_update_input_events).
Proof.
  apply (proj2 (proj2 (run_etl_only_update_input Examples.root
                         (Examples.flags false true false false) Examples.w0
                         eq_refl eq_refl eq_refl)
                  (Examples.manager (Local (MkLocal None None)))
                  (snd (make_manager Examples.root
                          (Examples.flags false true false false)
                          Examples.w0))
                  eq_refl) true).
  reflexivity.
Defined.

(** C6 as stated fails: with [only_update_input] and [only_parse] both set,
    [update_local_input] is skipped and [parse] is invoked. *)
Lemma only_update_input_with_only_parse_parses :
  ¬ (∀ self_cls a w,
       r_only_update_input a = true →
       let ps := phases_of (new_events (run_etl self_cls a) w) in
       (Parse ∉ ps) ∧ (PrepareInputFiles ∉ ps) ∧ (OnlyUpdateMetadata ∉ ps)).
Proof.
  intros Hall.
  destruct (Hall Examples.root (Examples.flags true true false false)
              Examples.w0 eq_refl) as (Hparse & _).
  apply Hparse.
  change (Parse ∈ [Parse]).
  solve_phases.
Qed.

(** ** Filesystem handles and existence checks of the stores *)





(** X3: Creating a mapper on the S3 or Local store goes through the cached
    filesystem handle when there is one, also under [refresh=True]: no new
    connection is opened, and the handle stays cached. *)
Theorem mapper_creation_reuses_filesystem
    (dm : DatasetManager) (kw : mapper_kwargs) (st : StoreInterface)
    (w : world) (f : filesystem) :
  cached_fs st = Some f →
  default false (kw_refresh kw) = true ∨ cached_mapper st = None →
  ∃ m st' w',
    mapper dm kw st w = (Returned (m, st'), w')
    ∧ mapper_fs m = Some f
    ∧ mapper_id m = w_next w
    ∧ cached_fs st' = Some f
    ∧ cached_mapper st' = Some m
    ∧ Forall (λ e, is_connect e = false) (new_events (mapper dm kw st) w).
Proof.
  intros Hf Hnew.
  assert (default false (kw_refresh kw) || negb (hasattr (cached_mapper st))
          = true) as Hcond.
  { destruct Hnew as [-> | ->]; [done | apply orb_true_r]. }
  destruct st as [[bucket fs0 mp]| |[fs0 mp]]; simpl in Hf, Hcond;
    [|discriminate|]; subst fs0.
  - unfold new_events, mapper, S3_mapper, S3_fs, bind. simpl.
    rewrite Hcond. simpl.
    eexists _, _, _. split; [reflexivity|]. repeat split.
    rewrite drop_app_length. by repeat constructor.
  - unfold new_events, mapper, Local_mapper, Local_fs, bind. simpl.
    rewrite Hcond. simpl.
    eexists _, _, _. split; [reflexivity|]. repeat split.
    rewrite drop_app_length. by repeat constructor.
Qed.

Lemma mapper_creation_reuses_filesystem_witness :
  ∃ m st' w',
    mapper (Examples.manager (S3 (MkS3 "arbol-zarrs"
                                    (Some (S3FileSystem 0 None)) None)))
      refresh_kwargs
      (S3 (MkS3 "arbol-zarrs" (Some (S3FileSystem 0 None)) None)) Examples.w0
    = (Returned (m, st'), w')
    ∧ mapper_fs m = Some (S3FileSystem 0 None)
    ∧ mapper_id m = 1
    ∧ cached_fs st' = Some (S3FileSystem 0 None)
    ∧ cached_mapper st' = Some m
    ∧ Forall (λ e, is_connect e = false)
        (new_events
           (mapper (Examples.manager (S3 (MkS3 "arbol-zarrs"
                                           (Some (S3FileSystem 0 None)) None)))
              refresh_kwargs
              (S3 (MkS3 "arbol-zarrs" (Some (S3FileSystem 0 None)) None)))
           Examples.w0).
Proof.
  apply (mapper_creation_reuses_filesystem
           (Examples.manager (S3 (MkS3 "arbol-zarrs"
                                    (Some (S3FileSystem 0 None)) None)))
           refresh_kwargs
           (S3 (MkS3 "arbol-zarrs" (Some (S3FileSystem 0 None)) None))
           Examples.w0 (S3FileSystem 0 None) eq_refl).
  by left.
Defined.

(** How [has_existing] runs: the answer is that of the world, the cached
    mapper is not touched and no mapper is created. *)
Lemma has_existing_run dm st w :
  ∃ st1 w1 evs,
    has_existing dm st w = (Returned (exists_on dm st w, st1), w1)
    ∧ w_trace w1 = w_trace w ++ evs
    ∧ Forall (λ e, is_mapper_creation e = false) evs
    ∧ w_existing w1 = w_existing w
    ∧ w_latest_hash w1 = w_latest_hash w
    ∧ cached_mapper st1 = cached_mapper st
    ∧ (is_S3 st = false → st1 = st)
    ∧ (∀ s, st = S3 s →
         ∃ f, st1 = S3 (MkS3 (s3_bucket s) (Some f) (s3_mapper s))
              ∧ (∀ f0, s3_fs s = Some f0 → f = f0 ∧ evs = [EvExists (S3_url dm s)])).
Proof.
  destruct st as [[bucket fs0 mp]| |[fs0 mp]].
  - unfold has_existing, S3_has_existing, S3_fs, catch_KeyError, environ_get,
      bind, exists_on.
    simpl. destruct fs0 as [f0|]; simpl.
    { eexists _, _, _. split; [reflexivity|]. split; [reflexivity|].
      split; [by repeat constructor|].
      split; [reflexivity|]. split; [reflexivity|]. split; [reflexivity|].
      split; [intros [=]|].
      intros s [= <-]. eexists. split; [reflexivity|]. by intros ? [= <-]. }
    destruct (w_environ w !! "AWS_ACCESS_KEY_ID") as [key|]; simpl;
      [destruct (w_environ w !! "AWS_SECRET_ACCESS_KEY") as [secret|]; simpl|];
      (eexists _, _, _; split; [reflexivity|];
       split; [norm_world; reflexivity|];
       split; [by repeat constructor|];
       split; [reflexivity|]; split; [reflexivity|]; split; [reflexivity|];
       split; [intros [=]|];
       intros s [= <-]; eexists; split; [reflexivity|]; intros ? [=]).
  - eexists _, _, _. split; [reflexivity|]. split; [reflexivity|].
    split; [by repeat constructor|].
    split; [reflexivity|]. split; [reflexivity|]. split; [reflexivity|].
    split; [done|]. intros s [=].
  - eexists _, _, _. split; [reflexivity|]. split; [reflexivity|].
    split; [by repeat constructor|].
    split; [reflexivity|]. split; [reflexivity|]. split; [reflexivity|].
    split; [done|]. intros s [=].
Qed.

(** X4: [has_existing] answers what the world holds (the URL or the path exists,
    or a latest hash resolves), creates no mapper and leaves the cached one
    alone.  On the Local and IPLD stores the store is left as it was; on the
    S3 store the check connects the filesystem handle if none is cached yet.
    Asking a second time gives the same answer and changes the store no
    more. *)
Theorem has_existing_answer_and_state
    (dm : DatasetManager) (st : StoreInterface) (w : world) :
  ∃ st1 w1 w2,
    has_existing dm st w = (Returned (exists_on dm st w, st1), w1)
    ∧ cached_mapper st1 = cached_mapper st
    ∧ Forall (λ e, is_mapper_creation e = false)
             (new_events (has_existing dm st) w)
    ∧ (is_S3 st = false → st1 = st)
    ∧ (is_S3 st = true → is_Some (cached_fs st1))
    ∧ has_existing dm st1 w1 = (Returned (exists_on dm st w, st1), w2).
Proof.
  destruct (has_existing_run dm st w)
    as (st1 & w1 & evs & Hrun & Htr & Hevs & Hex & Hlh & Hmp & Hsame & Hs3).
  destruct (has_existing_run dm st1 w1)
    as (st2 & w2 & evs2 & Hrun2 & _ & _ & _ & _ & _ & Hsame2 & Hs32).
  assert (exists_on dm st1 w1 = exists_on dm st w) as Hans.
  { destruct st as [s| |s].
    - destruct (Hs3 s eq_refl) as (f & -> & _). simpl.
      unfold S3_url. simpl. by rewrite Hex.
    - rewrite (Hsame eq_refl). simpl. by rewrite Hlh.
    - rewrite (Hsame eq_refl). simpl. by rewrite Hex. }
  assert (st2 = st1) as ->.
  { destruct st as [s| |s].
    - destruct (Hs3 s eq_refl) as (f & -> & _).
      destruct (Hs32 _ eq_refl) as (f2 & -> & Hf2). simpl in *.
      by destruct (Hf2 f eq_refl) as [-> _].
    - apply Hsame2. by rewrite (Hsame eq_refl).
    - apply Hsame2. by rewrite (Hsame eq_refl). }
  exists st1, w1, w2. split; [exact Hrun|]. split; [exact Hmp|].
  split. { unfold new_events. rewrite Hrun. simpl. by rewrite Htr, drop_app_length. }
  split; [exact Hsame|]. split.
  - destruct st as [s| |s]; try discriminate. intros _.
    destruct (Hs3 s eq_refl) as (f & -> & _). simpl. by eexists.
  - by rewrite <- Hans.
Qed.

(** X5: [dataset] opens something only when [has_existing] says there is data:
    otherwise it returns [None] without creating a mapper.  When there is
    data it opens the mapper that [mapper] returns for the same keywords,
    the cached one if there is one and no refresh is asked for. *)
Theorem dataset_opens_only_existing_data
    (dm : DatasetManager) (kw : mapper_kwargs) (st : StoreInterface) (w : world) :
  (exists_on dm st w = false →
   ∃ st1 w1,
     dataset dm kw st w = (Returned (None, st1), w1)
     ∧ cached_mapper st1 = cached_mapper st
     ∧ Forall (λ e, is_mapper_creation e = false)
              (new_events (dataset dm kw st) w))
  ∧ (exists_on dm st w = true →
     ∃ m st1 w1,
       dataset dm kw st w = (Returned (Some (open_zarr m), st1), w1)
       ∧ (is_IPLD st = false → cached_mapper st1 = Some m)
       ∧ (∀ c, cached_mapper st = Some c →
               default false (kw_refresh kw) = false → m = c)).
Proof.
  destruct (has_existing_run dm st w)
    as (st1 & w1 & evs & Hrun & Htr & Hevs & _ & _ & Hmp & Hsame & Hs3).
  split; intros Hex; rewrite Hex in Hrun.
  - exists st1, w1. unfold new_events, dataset, bind. rewrite Hrun. simpl.
    split; [done|]. split; [done|]. by rewrite Htr, drop_app_length.
  - assert (is_IPLD st1 = is_IPLD st) as Hipld.
    { destruct st as [s| |s]; [|by rewrite (Hsame eq_refl)..].
      by destruct (Hs3 s eq_refl) as (f & -> & _). }
    unfold dataset, bind. rewrite Hrun. simpl.
    destruct (cached_mapper st1) as [c|] eqn:Hc.
    + destruct (default false (kw_refresh kw)) eqn:Hkw.
      * destruct (is_IPLD st1) eqn:Hst1.
        { by destruct st1. }
        destruct (mapper_created dm kw st1 w1 Hst1 (or_introl Hkw))
          as (m & st2 & w2 & -> & Hm & _).
        exists m, st2, w2. split; [done|]. split; [done|]. intros ? _ [=].
      * rewrite (mapper_cached_returned dm kw st1 w1 c Hkw Hc).
        exists c, st1, w1. split; [done|]. split; [done|].
        intros c' Hc' _. rewrite Hmp in Hc. congruence.
    + destruct (is_IPLD st1) eqn:Hst1.
      * destruct st1; try discriminate. unfold mapper, bind.
        destruct (IPLD_mapper dm (default true (kw_set_root kw)) w1)
          as [[m|e] w2] eqn:Hm.
        -- exists m, IPLD, w2. split; [done|].
           split; [by rewrite <- Hipld|]. rewrite <- Hmp. intros ? [=].
        -- exfalso. destruct (default true (kw_set_root kw)).
           ++ unfold IPLD_mapper, get_ipfs_mapper, latest_hash, bind in Hm.
              revert Hm.
              destruct (truthy (requested_ipfs_chunker dm)); simpl;
                destruct (requested_ipfs_chunker dm); simpl;
                destruct (truthy (w_latest_hash w1)); simpl; discriminate.
           ++ destruct (IPLD_mapper_unrooted dm w1) as (? & Hu & _).
              rewrite Hu in Hm. discriminate.
      * destruct (mapper_created dm kw st1 w1 Hst1 (or_intror Hc))
          as (m & st2 & w2 & -> & Hm & _).
        exists m, st2, w2. split; [done|]. split; [done|].
        rewrite <- Hmp. intros ? [=].
Qed.

Lemma dataset_opens_only_existing_data_witness :
  ∃ st1 w1,
    dataset (Examples.manager (Local (MkLocal None None))) no_kwargs
      (Local (MkLocal None None)) Examples.w0
    = (Returned (None, st1), w1)
    ∧ cached_mapper st1 = None
    ∧ Forall (λ e, is_mapper_creation e = false)
        (new_events (dataset (Examples.manager (Local (MkLocal None None)))
                       no_kwargs (Local (MkLocal None None))) Examples.w0).
Proof.
  apply (proj1 (dataset_opens_only_existing_data
                  (Examples.manager (Local (MkLocal None None))) no_kwargs
                  (Local (MkLocal None None)) Examples.w0)).
  reflexivity.
Defined.

(** ** Reading a dataset on the IPLD store *)

(** X6: With a latest hash published, [dataset()] on the IPLD store opens a
    mapper rooted at that hash, and asks for the latest hash three times on
    the way (once for [has_existing], twice in [mapper]).  Passing
    [set_root=False] makes it open an unrooted mapper although data exists,
    after asking once. *)
Theorem IPLD_dataset_roots_at_latest_hash
    (dm : DatasetManager) (w : world) (h : string) :
  w_latest_hash w = Some h → h ≠ "" →
  (∃ m w',
     dataset dm no_kwargs IPLD w = (Returned (Some (open_zarr m), IPLD), w')
     ∧ mapper_root m = Some h
     ∧ latest_hash_calls (new_events (dataset dm no_kwargs IPLD) w) = 3)
  ∧ (∃ m w',
       dataset dm (MapperKwargs None (Some false)) IPLD w
       = (Returned (Some (open_zarr m), IPLD), w')
       ∧ mapper_root m = None
       ∧ latest_hash_calls
           (new_events (dataset dm (MapperKwargs None (Some false)) IPLD) w)
         = 1).
Proof.
  intros Hh Hne. apply String.eqb_neq in Hne.
  split.
  - unfold new_events, dataset, has_existing, IPLD_has_existing, mapper,
      IPLD_mapper, get_ipfs_mapper, latest_hash, bind. simpl.
    rewrite Hh. simpl. rewrite Hne. simpl.
    destruct (requested_ipfs_chunker dm) as [c|]; simpl;
      [destruct (negb (String.eqb c ""))|]; simpl;
      rewrite ?Hh; simpl; rewrite ?Hne; simpl;
      (eexists _, _; split; [reflexivity|]; simpl; rewrite ?Hh;
       split; [reflexivity|];
       rewrite <- ?app_assoc, drop_app_length; reflexivity).
  - unfold new_events, dataset, has_existing, IPLD_has_existing, mapper,
      IPLD_mapper, get_ipfs_mapper, latest_hash, bind. simpl.
    rewrite Hh. simpl. rewrite Hne. simpl.
    destruct (requested_ipfs_chunker dm) as [c|]; simpl;
      [destruct (negb (String.eqb c ""))|]; simpl;
      (eexists _, _; split; [reflexivity|]; split; [reflexivity|];
       rewrite <- ?app_assoc, drop_app_length; reflexivity).
Qed.

Lemma IPLD_dataset_roots_at_latest_hash_witness :
  ∃ m w',
    dataset (Examples.manager IPLD) no_kwargs IPLD Examples.w_published
    = (Returned (Some (open_zarr m), IPLD), w')
    ∧ mapper_root m = Some "bafyreib4"
    ∧ latest_hash_calls
        (new_events (dataset (Examples.manager IPLD) no_kwargs IPLD)
           Examples.w_published) = 3.
Proof.
  apply (proj1 (IPLD_dataset_roots_at_latest_hash (Examples.manager IPLD)
                  Examples.w_published "bafyreib4" eq_refl
                  ltac:(discriminate))).
Defined.

(** X7: [str] of the IPLD store is ["/ipfs/"] followed by the latest hash, and
    just ["/ipfs/"] exactly when [has_existing] is [False]; it never shows
    ["None"]. *)
Theorem IPLD_str_shows_latest_hash (dm : DatasetManager) (w : world) :
  ∃ w',
    IPLD_str dm w
    = (Returned ("/ipfs/" +:+ (if exists_on dm IPLD w
                               then default "" (w_latest_hash w) else "")),
       w').
Proof.
  unfold IPLD_str, latest_hash, bind. simpl.
  destruct (w_latest_hash w) as [h|] eqn:Hh; simpl;
    [destruct (String.eqb h "") eqn:Hne; simpl; rewrite ?Hh; simpl|];
    by eexists.
Qed.

(** ** Where mappers point *)

(** X8: A mapper created on the S3 or Local store is rooted at the location the
    store shows as its [str]: the S3 URL or the local path of the Zarr. *)
Theorem created_mapper_rooted_at_store_location
    (dm : DatasetManager) (kw : mapper_kwargs) (st : StoreInterface)
    (w : world) :
  is_IPLD st = false →
  default false (kw_refresh kw) = true ∨ cached_mapper st = None →
  ∃ m st' w',
    mapper dm kw st w = (Returned (m, st'), w')
    ∧ mapper_root m = store_location dm st
    ∧ store_location dm st' = store_location dm st.
Proof.
  intros Hst Hnew.
  assert (default false (kw_refresh kw) || negb (hasattr (cached_mapper st))
          = true) as Hcond.
  { destruct Hnew as [-> | ->]; [done | apply orb_true_r]. }
  destruct st as [[bucket fs0 mp]| |[fs0 mp]]; simpl in Hst, Hcond;
    [|discriminate|].
  - unfold mapper, S3_mapper, S3_fs, catch_KeyError, environ_get, bind.
    simpl. rewrite Hcond. simpl.
    destruct fs0 as [f0|]; simpl; [by eexists _, _, _|].
    destruct (w_environ w !! "AWS_ACCESS_KEY_ID") as [key|]; simpl;
      [destruct (w_environ w !! "AWS_SECRET_ACCESS_KEY") as [secret|]; simpl|];
      by eexists _, _, _.
  - unfold mapper, Local_mapper, Local_fs, bind.
    simpl. rewrite Hcond. simpl.
    destruct fs0 as [f0|]; simpl; by eexists _, _, _.
Qed.

Lemma created_mapper_rooted_at_store_location_witness :
  ∃ m st' w',
    mapper (Examples.manager (S3 (MkS3 "arbol-zarrs" None None))) no_kwargs
      (S3 (MkS3 "arbol-zarrs" None None)) Examples.w0
    = (Returned (m, st'), w')
    ∧ mapper_root m
      = Some "s3://arbol-zarrs/datasets/chirps_final_05-daily.zarr"
    ∧ store_location (Examples.manager (S3 (MkS3 "arbol-zarrs" None None))) st'
      = Some "s3://arbol-zarrs/datasets/chirps_final_05-daily.zarr".
Proof.
  apply (created_mapper_rooted_at_store_location
           (Examples.manager (S3 (MkS3 "arbol-zarrs" None None))) no_kwargs
           (S3 (MkS3 "arbol-zarrs" None None)) Examples.w0 eq_refl).
  by right.
Defined.

Lemma append_cancel_r (s1 s2 t : string) : s1 +:+ t = s2 +:+ t → s1 = s2.
Proof.
  assert (∀ s u : string, String.length (s +:+ u)
                          = String.length s + String.length u) as Hlen.
  { intros s u. induction s as [|c s IH]; [done|].
    rewrite append_String. simpl. by rewrite IH. }
  revert s2. induction s1 as [|c s1 IH]; intros [|d s2] Heq.
  - done.
  - apply (f_equal String.length) in Heq.
    rewrite append_String, append_empty in Heq. simpl in Heq.
    rewrite Hlen in Heq. lia.
  - apply (f_equal String.length) in Heq.
    rewrite append_String, append_empty in Heq. simpl in Heq.
    rewrite Hlen in Heq. lia.
  - rewrite !append_String in Heq. injection Heq as -> Heq.
    by rewrite (IH s2 Heq).
Qed.

(** X9: In one bucket, datasets with different json keys never share a URL. *)
Theorem S3_url_determines_json_key
    (dm1 dm2 : DatasetManager) (s1 s2 : S3_store) :
  s3_bucket s1 = s3_bucket s2 →
  S3_url dm1 s1 = S3_url dm2 s2 →
  json_key dm1 = json_key dm2.
Proof.
  unfold S3_url. intros -> Heq.
  do 3 apply (inj (String.append _)) in Heq.
  by apply append_cancel_r in Heq.
Qed.

Lemma S3_url_determines_json_key_witness :
  json_key (Examples.manager IPLD)
  = json_key (Examples.manager (Local (MkLocal None None))).
Proof.
  apply (S3_url_determines_json_key (Examples.manager IPLD)
           (Examples.manager (Local (MkLocal None None)))
           (MkS3 "arbol-zarrs" None None) (MkS3 "arbol-zarrs" None None)
           eq_refl eq_refl).
Defined.

(** ** A freshly built manager *)

(** X10: A manager that [__init__] has just built has an empty [new_files] and
    no [metadata] attribute, keeps the paths, hash, rebuild flag and chunk
    sizes it was given, and is bound to a store without a cached filesystem
    or mapper.  Its thread count is at least one and, on a machine with at
    least one CPU, no more than the number of CPUs; it uses one worker. *)
Theorem DatasetManager_init_fresh_state
    (cls : source_class) (a : init_args) (w : world)
    (m : DatasetManager) (w' : world) :
  DatasetManager_init cls a w = (Returned m, w') →
  new_files m = []
  ∧ metadata m = None
  ∧ cached_fs (store m) = None
  ∧ cached_mapper (store m) = None
  ∧ rebuild_requested m = a_rebuild_requested a
  ∧ custom_output_path m = a_custom_output_path a
  ∧ custom_latest_hash m = a_custom_latest_hash a
  ∧ custom_input_path m = a_custom_input_path a
  ∧ requested_ipfs_chunker m = a_requested_ipfs_chunker a
  ∧ dask_num_workers m = 1%Z
  ∧ (1 ≤ dask_num_threads m)%Z
  ∧ (1 ≤ w_cpu_count w → dask_num_threads m ≤ w_cpu_count w)%Z.
Proof.
  intros Hrun.
  pose proof (select_store_world (a_store a) (a_s3_bucket_name a)
                (add_events w [EvSuperInit])) as Hw.
  unfold DatasetManager_init, bind in Hrun. rewrite emit_add_events in Hrun.
  destruct (select_store (a_store a) (a_s3_bucket_name a)
              (add_events w [EvSuperInit])) as [[st|e] w1] eqn:Hsel;
    simpl in Hw; subst w1; [|discriminate Hrun].
  assert (cached_fs st = None ∧ cached_mapper st = None) as [Hfs Hmp].
  { revert Hsel. unfold select_store. destruct (a_store a) as [s|].
    - destruct (String.eqb s "local"); [by intros [= <-]|].
      destruct (String.eqb s "ipld"); [by intros [= <-]|].
      destruct (String.eqb s "s3"); [|discriminate].
      unfold bind, S3_init.
      destruct (negb (truthy (a_s3_bucket_name a))); [discriminate|].
      by intros [= <-].
    - by intros [= <-]. }
  unfold when in Hrun.
  destruct (a_console_log a); simpl in Hrun; injection Hrun as <- _; simpl;
    (repeat split; try done; unfold default_num_threads;
     [lia | intros Hcpu;
            pose proof (Z.quot_pos (3 * w_cpu_count w) 4 ltac:(lia) ltac:(lia));
            assert (Z.quot (3 * w_cpu_count w) 4 ≤ w_cpu_count w)%Z
              by (apply Z.quot_le_upper_bound; lia);
            lia]).
Qed.

Lemma DatasetManager_init_fresh_state_witness :
  new_files (MoreExamples.manager_of Examples.chirps
               (Local (MkLocal None None))) = []
  ∧ metadata (MoreExamples.manager_of Examples.chirps
                (Local (MkLocal None None))) = None
  ∧ (1 ≤ dask_num_threads (MoreExamples.manager_of Examples.chirps
                             (Local (MkLocal None None))) ≤ 8)%Z.
Proof.
  destruct (DatasetManager_init_fresh_state Examples.chirps
              (Examples.init_with (Some "local") None false) Examples.w0
              (MoreExamples.manager_of Examples.chirps
                 (Local (MkLocal None None)))
              (add_events Examples.w0
                 (init_events (Examples.init_with (Some "local") None false)))
              eq_refl)
    as (Hnf & Hmd & _ & _ & _ & _ & _ & _ & _ & _ & Hlo & Hhi).
  split; [exact Hnf|]. split; [exact Hmd|].
  split; [exact Hlo|apply Hhi; simpl; lia].
Defined.

(** ** Merging into existing metadata *)

(** X11: When [self.metadata] already is a dictionary, [populate_metadata]
    updates that dictionary in place with the static metadata, whose values
    win on the keys both have, and then leaves [None] in [self.metadata],
    the return value of [dict.update]; when the static metadata is [None]
    the update raises [TypeError] and nothing changes. *)
Theorem populate_metadata_updates_in_place
    (dm : DatasetManager) (w : world) (d : nat) (target : pydict) :
  metadata dm = Some (PyDict d) →
  w_heap w !! d = Some target →
  (∀ a sm, static_metadata dm = PyDict a → w_heap w !! a = Some sm →
     ∃ dm1 w1,
       populate_metadata dm w = (Returned dm1, w1)
       ∧ metadata dm1 = Some PyNone
       ∧ w_heap w1 !! d = Some (sm ∪ target)
       ∧ (∀ k v, sm !! k = Some v → (sm ∪ target) !! k = Some v)
       ∧ (∀ k, sm !! k = None → (sm ∪ target) !! k = target !! k))
  ∧ (static_metadata dm = PyNone →
     populate_metadata dm w
     = (Raised (TypeError "'NoneType' object is not iterable"), w)).
Proof.
  intros Hmd Hd. split.
  - intros a sm Hstatic Hsm.
    unfold populate_metadata, dict_update, bind, gets. rewrite Hmd. simpl.
    rewrite Hd, Hstatic, Hsm. simpl.
    eexists _, _. split; [reflexivity|]. split; [reflexivity|]. simpl.
    split; [apply lookup_insert_eq|]. split.
    + intros k v Hk. by apply lookup_union_Some_l.
    + intros k Hk. by apply lookup_union_r.
  - intros Hstatic.
    unfold populate_metadata, dict_update, bind, gets. rewrite Hmd. simpl.
    by rewrite Hd, Hstatic.
Qed.

Lemma populate_metadata_updates_in_place_witness :
  ∃ dm1 w1,
    populate_metadata
      (with_metadata (Examples.manager IPLD) (Some (PyDict 1)))
      MoreExamples.w_draft
    = (Returned dm1, w1)
    ∧ metadata dm1 = Some PyNone
    ∧ w_heap w1 !! 1 = Some (MoreExamples.static ∪ MoreExamples.draft).
Proof.
  assert (w_heap MoreExamples.w_draft !! 1 = Some MoreExamples.draft) as Hd
    by (vm_compute; reflexivity).
  assert (w_heap MoreExamples.w_draft !! 0 = Some MoreExamples.static) as Hs
    by (vm_compute; reflexivity).
  destruct (proj1 (populate_metadata_updates_in_place
                     (with_metadata (Examples.manager IPLD) (Some (PyDict 1)))
                     MoreExamples.w_draft 1 MoreExamples.draft eq_refl Hd)
              0 MoreExamples.static eq_refl Hs)
    as (dm1 & w1 & Hrun & Hmd & Hheap & _).
  exists dm1, w1. split; [exact Hrun|]. split; [exact Hmd|exact Hheap].
Defined.

(** ** The sequence of lifecycle methods in a run *)

Ltac solve_sublist :=
  repeat first [apply sublist_nil | apply sublist_skip | apply sublist_cons].

Lemma run_phases_shape manager a w :
  let ps := phases_of (new_events (run_phases manager a) w) in
  ps `sublist_of` lifecycle_order
  ∧ ∀ e, fst (run_phases manager a w) = Raised e
         ↔ ∃ p, last ps = Some p
                ∧ phase_raises (cls_impl (dm_class manager)) p e.
Proof.
  destruct a as [dn st bk rb only_parse only_update only_prepare only_md co cl].
  destruct (cls_impl (dm_class manager))
    as [? ? ? ? ? update metadata_step prepare create parse] eqn:Himpl.
  destruct only_parse, only_update, only_prepare, only_md, parse as [[|]|].
  all: lazymatch goal with
       | |- context [EtlArgs _ _ _ _ false _ _ false _ _] =>
           destruct update as [[|]|]
       | |- _ => idtac
       end.
  all: lazymatch goal with
       | |- context [EtlArgs _ _ _ _ _ _ _ true _ _] =>
           destruct metadata_step as [[]|]
       | |- _ => idtac
       end.
  all: lazymatch goal with
       | |- context [EtlArgs _ _ _ _ _ _ true _ _ _] =>
           destruct prepare as [[]|], create as [[]|]
       | |- _ => idtac
       end.
  all: eval_run_phases Himpl w.
  all: (split; [solve_sublist|]).
  all: intros err; split;
    [ first [discriminate | intros [= <-]; eexists; split; reflexivity]
    | intros (p & Hlast & Hp); cbn in Hlast;
      first [ discriminate Hlast
            | injection Hlast as <-; cbn in Hp; congruence ] ].
Qed.

(** X12: In every run the lifecycle methods are invoked in the order update,
    metadata, prepare, Zarr JSON, parse, each at most once. *)
Theorem run_etl_phases_in_order
    (self_cls : source_class) (a : etl_args) (w : world) :
  phases_of (new_events (run_etl self_cls a) w) `sublist_of` lifecycle_order.
Proof.
  pose proof (run_etl_phases self_cls a w) as Hsplit.
  destruct (make_manager self_cls a w) as [[manager|e] w1].
  - destruct Hsplit as [_ ->]. apply run_phases_shape.
  - destruct Hsplit as [_ ->]. apply sublist_nil_l.
Qed.

(** X13: Once the manager exists, [run_etl] raises exactly when the last
    lifecycle method it invoked raised, and it raises that exception: a
    failing phase ends the run, and nothing else makes it fail. *)
Theorem run_etl_raises_what_a_phase_raised
    (self_cls : source_class) (a : etl_args) (w : world)
    (manager : DatasetManager) (w1 : world) :
  make_manager self_cls a w = (Returned manager, w1) →
  ∀ e, fst (run_etl self_cls a w) = Raised e
       ↔ ∃ p, last (phases_of (new_events (run_etl self_cls a) w)) = Some p
              ∧ phase_raises (cls_impl (dm_class manager)) p e.
Proof.
  intros Hmk. pose proof (run_etl_phases self_cls a w) as Hsplit.
  rewrite Hmk in Hsplit. destruct Hsplit as [-> ->].
  apply run_phases_shape.
Qed.

Lemma run_etl_raises_what_a_phase_raised_witness :
  fst (run_etl MoreExamples.root
         (MoreExamples.run_of "flaky" (Some "local")) Examples.w0)
  = Raised MoreExamples.unreachable.
Proof.
  apply (proj2 (run_etl_raises_what_a_phase_raised MoreExamples.root
                  (MoreExamples.run_of "flaky" (Some "local")) Examples.w0
                  (MoreExamples.manager_of MoreExamples.flaky
                     (Local (MkLocal None None)))
                  (snd (make_manager MoreExamples.root
                          (MoreExamples.run_of "flaky" (Some "local"))
                          Examples.w0))
                  eq_refl MoreExamples.unreachable)).
  exists UpdateLocalInput. split; reflexivity.
Defined.

Lemma run_phases_only_parse manager a w :
  r_only_parse a = true →
  let ps := phases_of (new_events (run_phases manager a) w) in
  (UpdateLocalInput ∉ ps)
  ∧ (fst (run_phases manager a w) = Returned tt → Parse ∈ ps)
  ∧ (r_only_metadata a = false → r_only_prepare_input a = false →
     ps = [Parse]).
Proof.
  destruct a as [dn st bk rb only_parse only_update only_prepare only_md co cl].
  simpl. intros ->.
  destruct (cls_impl (dm_class manager))
    as [? ? ? ? ? update metadata_step prepare create parse] eqn:Himpl.
  destruct only_prepare, only_md, metadata_step as [[]|],
    prepare as [[]|], create as [[]|], parse as [[|]|];
    eval_run_phases Himpl w;
    (split; [solve_phases|]); (split; [solve_phases|]); solve_phases.
Qed.

(** X14: With [only_parse=True], [update_local_input] is never invoked; once the
    manager exists, a run that returns has invoked [parse], and with neither
    [only_metadata] nor [only_prepare_input] set [parse] is the only
    lifecycle method invoked. *)
Theorem run_etl_only_parse
    (self_cls : source_class) (a : etl_args) (w : world) :
  r_only_parse a = true →
  let ps := phases_of (new_events (run_etl self_cls a) w) in
  (UpdateLocalInput ∉ ps)
  ∧ ∀ manager w1,
      make_manager self_cls a w = (Returned manager, w1) →
      (fst (run_etl self_cls a w) = Returned tt → Parse ∈ ps)
      ∧ (r_only_metadata a = false → r_only_prepare_input a = false →
         ps = [Parse]).
Proof.
  intros Hparse ps. subst ps.
  pose proof (run_etl_phases self_cls a w) as Hsplit.
  destruct (make_manager self_cls a w) as [[manager|e] w1].
  - destruct Hsplit as [-> ->].
    destruct (run_phases_only_parse manager a w1 Hparse) as (Hup & Hret & Hal).
    split; [done|]. by intros manager' w1' [= <- <-].
  - destruct Hsplit as [_ ->]. split; [solve_phases|]. intros ? ? [=].
Qed.

Lemma run_etl_only_parse_witness :
  phases_of (new_events (run_etl Examples.root
                           (Examples.flags true false false false))
               Examples.w0) = [Parse].
Proof.
  apply (proj2 (run_etl_only_parse Examples.root
                  (Examples.flags true false false false) Examples.w0
                  eq_refl)
           (Examples.manager (Local (MkLocal None None)))
           (snd (make_manager Examples.root
                   (Examples.flags true false false false) Examples.w0))
           eq_refl); reflexivity.
Defined.

Lemma run_phases_no_flags manager a w b :
  r_only_parse a = false → r_only_update_input a = false →
  r_only_prepare_input a = false → r_only_metadata a = false →
  src_update_local_input (cls_impl (dm_class manager)) = Returned b →
  phases_of (new_events (run_phases manager a) w)
  = UpdateLocalInput :: (if b then [Parse] else [])
  ∧ (b = false →
     run_phases manager a w = (Returned tt, add_events w nothing_new_events)).
Proof.
  destruct a as [dn st bk rb only_parse only_update only_prepare only_md co cl].
  simpl. intros -> -> -> ->.
  destruct (cls_impl (dm_class manager))
    as [? ? ? ? ? update metadata_step prepare create parse] eqn:Himpl.
  simpl. intros ->.
  destruct b, parse as [[|]|]; eval_run_phases Himpl w; by split.
Qed.

(** X15: A run without any [only_*] flag, once the manager exists, invokes
    [update_local_input] and then [parse] exactly when the update reported
    new data; when it reported none, the run logs that and returns
    normally. *)
Theorem run_etl_parses_only_new_data
    (self_cls : source_class) (a : etl_args) (w : world)
    (manager : DatasetManager) (w1 : world) (b : bool) :
  r_only_parse a = false → r_only_update_input a = false →
  r_only_prepare_input a = false → r_only_metadata a = false →
  make_manager self_cls a w = (Returned manager, w1) →
  src_update_local_input (cls_impl (dm_class manager)) = Returned b →
  phases_of (new_events (run_etl self_cls a) w)
  = UpdateLocalInput :: (if b then [Parse] else [])
  ∧ (b = false →
     run_etl self_cls a w = (Returned tt, add_events w1 nothing_new_events)).
Proof.
  intros H1 H2 H3 H4 Hmk Hup.
  pose proof (run_etl_phases self_cls a w) as Hsplit.
  rewrite Hmk in Hsplit. destruct Hsplit as [-> ->].
  by apply run_phases_no_flags.
Qed.

Lemma run_etl_parses_only_new_data_witness :
  phases_of (new_events (run_etl Examples.root
                           (Examples.flags false false false false))
               Examples.w0) = [UpdateLocalInput; Parse].
Proof.
  apply (run_etl_parses_only_new_data Examples.root
           (Examples.flags false false false false) Examples.w0
           (Examples.manager (Local (MkLocal None None)))
           (snd (make_manager Examples.root
                   (Examples.flags false false false false) Examples.w0))
           true eq_refl eq_refl eq_refl eq_refl eq_refl eq_refl).
Defined.

Lemma run_phases_only_prepare_input manager a w b :
  r_only_prepare_input a = true →
  r_only_parse a = false → r_only_update_input a = false →
  r_only_metadata a = false →
  src_update_local_input (cls_impl (dm_class manager)) = Returned b →
  src_prepare_input_files (cls_impl (dm_class manager)) = Returned tt →
  src_create_zarr_json (cls_impl (dm_class manager)) = Returned tt →
  phases_of (new_events (run_phases manager a) w)
  = [UpdateLocalInput; PrepareInputFiles; CreateZarrJson]
    ++ (if b then [Parse] else []).
Proof.
  destruct a as [dn st bk rb only_parse only_update only_prepare only_md co cl].
  simpl. intros -> -> -> ->.
  destruct (cls_impl (dm_class manager))
    as [? ? ? ? ? update metadata_step prepare create parse] eqn:Himpl.
  simpl. intros -> -> ->.
  destruct b, parse as [[|]|]; eval_run_phases Himpl w; done.
Qed.

(** X16: [only_prepare_input] adds the preparation of the input files and of the
    Zarr JSON, in that order, after the update; it does not hold back the
    parse: when the update reported new data, [parse] still runs after
    them. *)
Theorem run_etl_only_prepare_input_still_parses
    (self_cls : source_class) (a : etl_args) (w : world)
    (manager : DatasetManager) (w1 : world) (b : bool) :
  r_only_prepare_input a = true →
  r_only_parse a = false → r_only_update_input a = false →
  r_only_metadata a = false →
  make_manager self_cls a w = (Returned manager, w1) →
  src_update_local_input (cls_impl (dm_class manager)) = Returned b →
  src_prepare_input_files (cls_impl (dm_class manager)) = Returned tt →
  src_create_zarr_json (cls_impl (dm_class manager)) = Returned tt →
  phases_of (new_events (run_etl self_cls a) w)
  = [UpdateLocalInput; PrepareInputFiles; CreateZarrJson]
    ++ (if b then [Parse] else []).
Proof.
  intros H1 H2 H3 H4 Hmk Hup Hprep Hcreate.
  pose proof (run_etl_phases self_cls a w) as Hsplit.
  rewrite Hmk in Hsplit. destruct Hsplit as [_ ->].
  by apply run_phases_only_prepare_input.
Qed.

Lemma run_etl_only_prepare_input_still_parses_witness :
  phases_of (new_events (run_etl Examples.root
                           (Examples.flags false false true false))
               Examples.w0)
  = [UpdateLocalInput; PrepareInputFiles; CreateZarrJson; Parse].
Proof.
  apply (run_etl_only_prepare_input_still_parses Examples.root
           (Examples.flags false false true false) Examples.w0
           (Examples.manager (Local (MkLocal None None)))
           (snd (make_manager Examples.root
                   (Examples.flags false false true false) Examples.w0))
           true eq_refl eq_refl eq_refl eq_refl eq_refl eq_refl eq_refl
           eq_refl).
Defined.

(** ** Failures of [run_etl] before the manager exists *)

(** X17: A dataset name that no subclass answers to makes [run_etl] print the
    resolution failure and then raise [TypeError], for it calls the [None]
    it got; no manager is built and nothing else happens. *)
Theorem run_etl_unknown_dataset_raises_TypeError
    (self_cls : source_class) (a : etl_args) (w : world) :
  Forall (λ s, lookup_key (r_dataset_name a) s ≠ r_dataset_name a)
         (get_subclasses self_cls) →
  run_etl self_cls a w
  = (Raised not_callable,
     add_events w [resolution_failure (r_dataset_name a)]).
Proof.
  intros Hnone. unfold run_etl, get_dataset_manager_from_name, bind.
  by rewrite (scan_sources_none _ _ Hnone).
Qed.

Lemma run_etl_unknown_dataset_raises_TypeError_witness :
  run_etl Examples.root (MoreExamples.run_of "era5" (Some "local")) Examples.w0
  = (Raised not_callable,
     add_events Examples.w0 [resolution_failure "era5"]).
Proof.
  apply (run_etl_unknown_dataset_raises_TypeError Examples.root
           (MoreExamples.run_of "era5" (Some "local")) Examples.w0).
  repeat constructor; discriminate.
Defined.

(** When the dataset name resolves to [cls] and the selection of the store
    raises, so does [run_etl], right after the parent initialiser. *)
Lemma run_etl_select_store_raises self_cls a w before cls after e :
  get_subclasses self_cls = (before ++ cls :: after)%list →
  lookup_key (r_dataset_name a) cls = r_dataset_name a →
  Forall (λ c, lookup_key (r_dataset_name a) c ≠ r_dataset_name a) before →
  select_store (r_store a) (r_s3_bucket_name a) (add_events w [EvSuperInit])
  = (Raised e, add_events w [EvSuperInit]) →
  run_etl self_cls a w = (Raised e, add_events w [EvSuperInit]).
Proof.
  intros Hsubs Hcls Hbefore Hsel.
  unfold run_etl, get_dataset_manager_from_name, bind.
  rewrite Hsubs, (scan_sources_first _ _ _ _ Hcls Hbefore).
  unfold ret, instantiate.
  by erewrite init_failed by exact Hsel.
Qed.

(** X18: With a dataset name that resolves, a [store] string outside "local",
    "ipld" and "s3" makes [run_etl] raise the store error, and "s3" without a
    bucket name the bucket error, as soon as the parent initialiser has run:
    no log file is opened and no lifecycle method is invoked. *)
Theorem run_etl_store_errors_come_first
    (self_cls : source_class) (a : etl_args) (w : world)
    (before after : list source_class) (cls : source_class) (s : string) :
  get_subclasses self_cls = (before ++ cls :: after)%list →
  lookup_key (r_dataset_name a) cls = r_dataset_name a →
  Forall (λ c, lookup_key (r_dataset_name a) c ≠ r_dataset_name a) before →
  r_store a = Some s →
  (s ≠ "local" → s ≠ "ipld" → s ≠ "s3" →
   run_etl self_cls a w = (Raised store_error, add_events w [EvSuperInit]))
  ∧ (s = "s3" → truthy (r_s3_bucket_name a) = false →
     run_etl self_cls a w = (Raised bucket_error, add_events w [EvSuperInit])).
Proof.
  intros Hsubs Hcls Hbefore Hstore.
  pose proof (λ e, run_etl_select_store_raises self_cls a w before cls after e
                     Hsubs Hcls Hbefore) as Hraise.
  split.
  - intros H1 H2 H3. apply Hraise. rewrite Hstore.
    by apply select_store_other.
  - intros -> Hb. apply Hraise. rewrite Hstore.
    unfold select_store; simpl. unfold bind.
    by rewrite (S3_init_fails _ _ Hb).
Qed.

Lemma run_etl_store_errors_come_first_witness :
  run_etl Examples.root (MoreExamples.run_of "chirps" (Some "s3")) Examples.w0
  = (Raised bucket_error, add_events Examples.w0 [EvSuperInit]).
Proof.
  apply (proj2 (run_etl_store_errors_come_first Examples.root
                  (MoreExamples.run_of "chirps" (Some "s3")) Examples.w0
                  [Examples.chirps_final_05] [Examples.gfs] Examples.chirps
                  "s3" eq_refl eq_refl
                  ltac:(repeat constructor; discriminate) eq_refl));
    reflexivity.
Defined.

(** ** Running from the command line *)

Lemma dest_s3_bucket : dest "--s3-bucket" = "s3_bucket".
Proof. reflexivity. Qed.

(** The keywords [run_etl_as_script] hands to [run_etl], read under the
    names of the parameters of [run_etl]. *)
Lemma script_keywords cl :
  let kwargs := delete "source" (parse_command_line cl) in
  parse_command_line cl !! "source" = Some (ArgStr (cl_source cl))
  ∧ kwargs !! "dataset_name" = None
  ∧ kwargs !! "store" = Some (ArgStr (cl_store cl))
  ∧ kwargs !! "s3_bucket_name" = None
  ∧ kwargs !! "rebuild" = Some (ArgBool (cl_rebuild cl))
  ∧ kwargs !! "only_parse" = Some (ArgBool (cl_only_parse cl))
  ∧ kwargs !! "only_update_input" = Some (ArgBool (cl_only_update_input cl))
  ∧ kwargs !! "only_prepare_input" = Some (ArgBool (cl_only_prepare_input cl))
  ∧ kwargs !! "only_metadata" = Some (ArgBool (cl_only_metadata cl))
  ∧ kwargs !! "custom_output_path"
    = Some (of_option (cl_custom_output_path cl))
  ∧ kwargs !! "custom_latest_hash"
    = Some (of_option (cl_custom_latest_hash cl))
  ∧ kwargs !! "s3_bucket" = Some (of_option (cl_s3_bucket cl)).
Proof.
  destruct cl. vm_compute. repeat split.
Qed.

Lemma as_option_of_option v : as_option (of_option v) = v.
Proof. by destruct v. Qed.

Lemma run_etl_as_script_run_etl self_cls cl :
  run_etl_as_script self_cls cl = run_etl self_cls (script_args cl).
Proof.
  destruct (script_keywords cl)
    as (Hsrc & Hdn & Hst & Hbk & Hrb & Hop & Hou & Hopi & Hom & Hco & Hcl & _).
  unfold run_etl_as_script, call_run_etl, script_args.
  rewrite Hsrc, Hdn, Hst, Hbk, Hrb, Hop, Hou, Hopi, Hom, Hco, Hcl. simpl.
  by rewrite !as_option_of_option.
Qed.


(** X20: From the command line the S3 store cannot be reached: with [store] "s3"
    and a source that resolves, [run_etl_as_script] raises the bucket error
    whatever was passed as [--s3-bucket], before any log file is opened or
    any lifecycle method invoked. *)
Theorem run_etl_as_script_s3_lacks_bucket
    (self_cls : source_class) (cl : command_line) (w : world)
    (before after : list source_class) (cls : source_class) :
  get_subclasses self_cls = (before ++ cls :: after)%list →
  lookup_key (cl_source cl) cls = cl_source cl →
  Forall (λ c, lookup_key (cl_source cl) c ≠ cl_source cl) before →
  cl_store cl = "s3" →
  run_etl_as_script self_cls cl w
  = (Raised bucket_error, add_events w [EvSuperInit]).
Proof.
  intros Hsubs Hcls Hbefore Hs3.
  rewrite run_etl_as_script_run_etl.
  apply (run_etl_select_store_raises self_cls (script_args cl) w
           before cls after); [done..|].
  unfold script_args; simpl. by rewrite Hs3.
Qed.

Lemma run_etl_as_script_s3_lacks_bucket_witness :
  run_etl_as_script Examples.root
    (CommandLine "chirps" "s3" (Some "arbol-zarrs") false None None None
                 false false false false false None None None false false)
    Examples.w0
  = (Raised bucket_error, add_events Examples.w0 [EvSuperInit]).
Proof.
  apply (run_etl_as_script_s3_lacks_bucket Examples.root
           (CommandLine "chirps" "s3" (Some "arbol-zarrs") false None None
                        None false false false false false None None None
                        false false)
           Examples.w0 [Examples.chirps_final_05] [Examples.gfs]
           Examples.chirps eq_refl eq_refl
           ltac:(repeat constructor; discriminate) eq_refl).
Defined.

(** ** More on name resolution *)

Lemma get_subclasses_smaller cls c :
  In c (get_subclasses cls) → cls_size c < cls_size cls.
Proof.
  revert c. induction cls as [n k i subs IH] using source_class_rect_nested.
  intros c Hin. simpl in Hin. apply in_flat_map in Hin as (sub & Hsub & Hc).
  assert (cls_size sub ≤ list_sum (map cls_size subs)) as Hle.
  { clear IH Hc. induction subs as [|s subs IHs]; [destruct Hsub|].
    simpl. destruct Hsub as [-> | Hsub]; [lia|]. specialize (IHs Hsub). lia. }
  simpl. apply in_app_or in Hc as [Hc | [<- | []]]; [|lia].
  rewrite Forall_forall in IH.
  specialize (IH sub (proj2 (list_elem_of_In _ _) Hsub) c Hc). lia.
Qed.

(** X21: The class [get_dataset_manager_from_name] returns is a transitive
    subclass whose key is the name asked for, and never the class the search
    started from; it returns [None] exactly when no transitive subclass has
    that key. *)
Theorem get_dataset_manager_from_name_sound_and_complete
    (self_cls : source_class) (name : string) (w : world) :
  match fst (get_dataset_manager_from_name self_cls name w) with
  | Returned (Some c) =>
      descendant self_cls c ∧ lookup_key name c = name ∧ c ≠ self_cls
  | Returned None =>
      ∀ c, descendant self_cls c → lookup_key name c ≠ name
  | Raised _ => False
  end.
Proof.
  unfold get_dataset_manager_from_name.
  destruct (scan_sources_split name (get_subclasses self_cls))
    as [(before & c & after & Hsubs & Hc & Hbefore) | Hall].
  - rewrite Hsubs, (scan_sources_first _ _ _ _ Hc Hbefore). simpl.
    assert (In c (get_subclasses self_cls)) as Hin.
    { rewrite Hsubs. apply in_or_app. right. by left. }
    split; [by apply get_subclasses_descendant|]. split; [done|].
    intros ->. apply get_subclasses_smaller in Hin. lia.
  - rewrite (scan_sources_none _ _ Hall). simpl.
    intros c Hc. apply get_subclasses_descendant in Hc.
    rewrite Forall_forall in Hall. apply Hall. by apply list_elem_of_In.
Qed.

Lemma scan_sources_app name l k :
  scan_sources name (l ++ k)
  = match scan_sources name l with
    | Some c => Some c
    | None => scan_sources name k
    end.
Proof.
  induction l as [|s l IH]; [done|]. simpl.
  destruct (str_contains "gfs" name);
    [destruct (String.eqb (cls_json_key s) name)
    |destruct (String.eqb (cls_name s) name)]; done.
Qed.

(** X22: The search goes through the direct subclasses in the order of their
    definition, and for each of them through the classes below it before
    the subclass itself: a match below a subclass wins over the subclass,
    and both win over the subclasses defined later. *)
Theorem resolution_searches_below_first
    (n k : string) (i : source_impl) (sub : source_class)
    (rest : list source_class) (name : string) :
  scan_sources name (get_subclasses (SourceClass n k i (sub :: rest)))
  = match scan_sources name (get_subclasses sub) with
    | Some c => Some c
    | None =>
        if String.eqb (lookup_key name sub) name then Some sub
        else scan_sources name (get_subclasses (SourceClass n k i rest))
    end.
Proof.
  change (get_subclasses (SourceClass n k i (sub :: rest)))
    with ((get_subclasses sub ++ [sub])
          ++ get_subclasses (SourceClass n k i rest))%list.
  rewrite !scan_sources_app.
  destruct (scan_sources name (get_subclasses sub)); [done|].
  unfold lookup_key. simpl.
  destruct (str_contains "gfs" name);
    [destruct (String.eqb (cls_json_key sub) name)
    |destruct (String.eqb (cls_name sub) name)]; done.
Qed.

(** ** Identity of a manager *)

(** X23: Two managers compare equal exactly when they have the same name,
    whatever their stores and settings; a manager also compares equal to the
    plain string of its name, and to nothing else; equal managers have the
    same hash. *)
Theorem DatasetManager_eq_by_name :
  (∀ m1 m2, DatasetManager_eq m1 (ObjManager m2) = true ↔ name m1 = name m2)
  ∧ (∀ m s, DatasetManager_eq m (ObjStr s) = true ↔ name m = s)
  ∧ (∀ m, DatasetManager_eq m ObjNone = false)
  ∧ (∀ hash m1 m2,
       DatasetManager_eq m1 (ObjManager m2) = true →
       DatasetManager_hash hash m1 = DatasetManager_hash hash m2).
Proof.
  assert (∀ m1 m2, DatasetManager_eq m1 (ObjManager m2) = true
                   ↔ name m1 = name m2) as Hmm.
  { intros m1 m2. unfold DatasetManager_eq, DatasetManager_str; simpl.
    rewrite String.eqb_eq. split; congruence. }
  split; [exact Hmm|]. split; [|split].
  - intros m s. unfold DatasetManager_eq, DatasetManager_str; simpl.
    apply String.eqb_eq.
  - reflexivity.
  - intros hash m1 m2 Heq. apply Hmm in Heq.
    unfold DatasetManager_hash, DatasetManager_str. by rewrite Heq.
Qed.
